(** * sign-url: signing and verifying URLs with a keyed digest

    A shallow embedding of [src/index.ts] (class [SignUrl]) and of the
    platform services it calls: JavaScript strings and numbers,
    [crypto.createHmac], [crypto.getHashes], [crypto.randomBytes], the WHATWG
    [URL] object with its [searchParams], [String.prototype.replace] with the
    one regular expression the code uses, and the clock read through [dayjs].

    Conventions of the model.
    - A string is the list of its code units; the model keeps 8 bits per unit
      (the Latin-1 part of UTF-16). Where a platform function leaves that
      alphabet the model does not follow it: the upper-case forms of three
      letters, and the characters that percent-escapes of non-ASCII bytes
      decode to. The theorems that upper-case or decode text of the caller
      restrict it to text the model follows (no escapes, none of the three
      letters), or hold whatever the mapping is.
    - A number is an integer ([Z]). As a JavaScript number it is exact when
      it is a safe integer (at most 2^53 - 1 in magnitude): there the decimal
      text of a number, [parseInt] and the comparisons are those of the
      platform. [NaN] is the absent value of an [option]. The theorems about
      the round trip assume that the expiry written into the URL is a safe
      integer.
    - An exception is the [Throw] case of [result].
    - The clock and the random bytes are arguments of [sign] and [verify]. *)

From Stdlib Require Import List Ascii ZArith NArith Lia Bool.
From Stdlib Require Import DecimalPos.
From Stdlib Require Strings.Byte.
Import ListNotations.

(* ================================================================= *)
(** ** JavaScript strings *)

Module Js.

Abbreviation str := (list ascii).

Declare Scope str_scope.
Delimit Scope str_scope with str.

(** String literals for [str]. *)
Inductive str_lit := SNil | SCons (a : ascii) (s : str_lit).

Fixpoint lit_of_bytes (l : list Byte.byte) : str_lit :=
  match l with
  | [] => SNil
  | b :: t => SCons (ascii_of_byte b) (lit_of_bytes t)
  end.

Fixpoint bytes_of_lit (l : str_lit) : list Byte.byte :=
  match l with
  | SNil => []
  | SCons a t => byte_of_ascii a :: bytes_of_lit t
  end.

#[warnings="-via-type-remapping,-via-type-mismatch"]
String Notation list lit_of_bytes bytes_of_lit
  (via str_lit mapping [[nil] => SNil, [cons] => SCons]) : str_scope.

Local Open Scope str_scope.

Definition code (c : ascii) : N := N_of_ascii c.

Definition in_range (lo hi : N) (c : ascii) : bool :=
  ((lo <=? code c) && (code c <=? hi))%N.

Definition is_digit (c : ascii) : bool := in_range 48 57 c.
Definition is_upper (c : ascii) : bool := in_range 65 90 c.
Definition is_lower (c : ascii) : bool := in_range 97 122 c.

(** The class [\w] of a regular expression: [A-Za-z0-9_]. *)
Definition is_word (c : ascii) : bool :=
  is_digit c || is_upper c || is_lower c || Ascii.eqb c "_".

Definition is_ascii (c : ascii) : bool := (code c <? 128)%N.

(** [a === b] on strings. *)
Fixpoint str_eqb (a b : str) : bool :=
  match a, b with
  | [], [] => true
  | x :: a', y :: b' => Ascii.eqb x y && str_eqb a' b'
  | _, _ => false
  end.

(** A string is truthy when it is not empty. *)
Definition truthy (s : str) : bool :=
  match s with [] => false | _ :: _ => true end.

(** [opt || ""] for a string that may be [undefined] or [null]. *)
Definition or_empty (o : option str) : str :=
  match o with Some s => s | None => [] end.

(** [opt || dflt]: the default replaces [null] and the empty string. *)
Definition or_default (o : option str) (dflt : str) : str :=
  if truthy (or_empty o) then or_empty o else dflt.

Fixpoint starts_with (p s : str) : bool :=
  match p, s with
  | [], _ => true
  | a :: p', b :: s' => Ascii.eqb a b && starts_with p' s'
  | _ :: _, [] => false
  end.

(** [s.indexOf(p)] searched from position [i]: the first position at which
    [p] occurs, or -1. *)
Fixpoint indexOf_from (s p : str) (i : Z) : Z :=
  match s with
  | [] => if starts_with p [] then i else (-1)%Z
  | _ :: t => if starts_with p s then i else indexOf_from t p (i + 1)
  end.

Definition indexOf (s p : str) : Z := indexOf_from s p 0.

(** [toUpperCase] on one code unit: the letters [a-z], and the Latin-1
    letters from [U+00E0] to [U+00FE] other than the division sign. Three
    letters of the alphabet have an upper-case form outside it ([U+00B5],
    [U+00FF]) or of two letters ([U+00DF]); the model leaves them as they
    are. *)
Definition toUpperCase_char (c : ascii) : ascii :=
  if is_lower c || (in_range 224 254 c && negb (N.eqb (code c) 247))
  then ascii_of_N (code c - 32) else c.

Definition toUpperCase (s : str) : str := map toUpperCase_char s.

(** [parts.join(sep)]. *)
Fixpoint join (sep : str) (parts : list str) : str :=
  match parts with
  | [] => []
  | [p] => p
  | p :: rest => p ++ sep ++ join sep rest
  end.

(** The longest prefix of characters other than [c], and what follows the
    first [c] (if there is one). *)
Fixpoint before (c : ascii) (s : str) : str :=
  match s with
  | [] => []
  | x :: t => if Ascii.eqb x c then [] else x :: before c t
  end.

Fixpoint after (c : ascii) (s : str) : option str :=
  match s with
  | [] => None
  | x :: t => if Ascii.eqb x c then Some t else after c t
  end.

(** [s.split(sep)] for a one-character separator. *)
Fixpoint split_on (sep : ascii) (s : str) : list str :=
  match s with
  | [] => [[]]
  | c :: t =>
      if Ascii.eqb c sep then [] :: split_on sep t
      else match split_on sep t with
           | seg :: segs => (c :: seg) :: segs
           | [] => [[c]]
           end
  end.

(* ----------------------------------------------------------------- *)
(** *** Numbers as text *)

Fixpoint chars_of_uint (u : Decimal.uint) : str :=
  match u with
  | Decimal.Nil => []
  | Decimal.D0 u => "0"%char :: chars_of_uint u
  | Decimal.D1 u => "1"%char :: chars_of_uint u
  | Decimal.D2 u => "2"%char :: chars_of_uint u
  | Decimal.D3 u => "3"%char :: chars_of_uint u
  | Decimal.D4 u => "4"%char :: chars_of_uint u
  | Decimal.D5 u => "5"%char :: chars_of_uint u
  | Decimal.D6 u => "6"%char :: chars_of_uint u
  | Decimal.D7 u => "7"%char :: chars_of_uint u
  | Decimal.D8 u => "8"%char :: chars_of_uint u
  | Decimal.D9 u => "9"%char :: chars_of_uint u
  end.

(** [String(z)] for a safe integer: decimal digits, a minus sign when
    negative. (Beyond the safe integers the platform rounds the digits, and
    from 10^21 on it writes an exponent; the model has [Z] there, and no
    theorem that reads the text back goes there.) *)
Definition number_to_string (z : Z) : str :=
  match z with
  | Z0 => "0"
  | Zpos p => chars_of_uint (Pos.to_uint p)
  | Zneg p => "-"%char :: chars_of_uint (Pos.to_uint p)
  end.

(** The value of a character as a digit of some radix up to 36. *)
Definition digit_value (c : ascii) : option N :=
  if is_digit c then Some (code c - 48)%N
  else if is_lower c then Some (code c - 87)%N
  else if is_upper c then Some (code c - 55)%N
  else None.

(** The longest prefix of digits of [radix], by Horner's rule; [seen] says
    whether a digit was read. No digit at all is [NaN]. *)
Fixpoint parse_digits (radix : N) (s : str) (acc : N) (seen : bool) : option N :=
  let stop := if seen then Some acc else None in
  match s with
  | [] => stop
  | c :: t =>
      match digit_value c with
      | Some d =>
          if (d <? radix)%N then parse_digits radix t (radix * acc + d)%N true
          else stop
      | None => stop
      end
  end.

(** White space that [parseInt] skips, as far as 8 bits hold it: tab, line
    feed, vertical tab, form feed, carriage return, space and the no-break
    space [U+00A0]. *)
Definition is_whitespace (c : ascii) : bool :=
  in_range 9 13 c || Ascii.eqb c " " || N.eqb (code c) 160.

Fixpoint skip_whitespace (s : str) : str :=
  match s with
  | c :: t => if is_whitespace c then skip_whitespace t else s
  | [] => []
  end.

(** A leading sign, and the [0x] prefix that selects radix 16. *)
Definition strip_sign (s : str) : bool * str :=
  match s with
  | c :: t =>
      if Ascii.eqb c "-" then (true, t)
      else if Ascii.eqb c "+" then (false, t)
      else (false, s)
  | [] => (false, [])
  end.

Definition strip_radix_prefix (s : str) : N * str :=
  match s with
  | c0 :: c1 :: t =>
      if Ascii.eqb c0 "0" && (Ascii.eqb c1 "x" || Ascii.eqb c1 "X")
      then (16%N, t) else (10%N, s)
  | _ => (10%N, s)
  end.

(** [parseInt(s)]: white space, a sign, an optional [0x] prefix, then the
    digits. [None] is [NaN]. *)
Definition parseInt (s : str) : option Z :=
  let '(negative, s2) := strip_sign (skip_whitespace s) in
  let '(radix, s3) := strip_radix_prefix s2 in
  match parse_digits radix s3 0 false with
  | Some n => Some (if negative then (- Z.of_N n)%Z else Z.of_N n)
  | None => None
  end.

(** A number is truthy when it is neither [NaN] nor zero. *)
Definition truthy_number (n : option Z) : bool :=
  match n with
  | Some z => negb (Z.eqb z 0)
  | None => false
  end.

(** The two kinds of value the method test of [verify] compares with -1. *)
Inductive value :=
| VBool (b : bool)
| VNumber (z : Z).

(** [a || b] where [a] is a boolean and [b] a number: [a] when it is true,
    [b] otherwise. *)
Definition bool_or_number (a : bool) (b : Z) : value :=
  if a then VBool true else VNumber b.

(** [v === z] for a number [z]: strict equality never equates a boolean
    with a number. *)
Definition strict_eq_number (v : value) (z : Z) : bool :=
  match v with
  | VNumber n => Z.eqb n z
  | VBool _ => false
  end.

End Js.

Import Js.
Local Open Scope str_scope.

(* ================================================================= *)
(** ** The platform: crypto, URL, regular expression *)

Module Platform.

(** What the runtime provides and the code only calls.
    - [getHashes]: the digest names [crypto.getHashes()] lists.
    - [hmac algorithm key data]: the raw HMAC of [data] under [key]. The
      model follows [createHmac] where it returns: for a name it has no HMAC
      for (a listed digest of variable length such as [shake128]) it throws
      an error of its own, there are no bytes, and [hmac] is the empty list.
      A theorem that concludes that [sign] or [verify] returns assumes that
      the HMAC of the engine's algorithm is not empty.
    - [URL_canParse input]: whether [new URL(input)] returns (it throws a
      [TypeError] otherwise). *)
Record Runtime := {
  getHashes : list str;
  hmac : str -> str -> str -> list Byte.byte;
  URL_canParse : str -> bool;
}.

(** [allSupportedAlgorithm.includes(algorithm)]. *)
Definition includes (l : list str) (x : str) : bool := existsb (str_eqb x) l.

(* ----------------------------------------------------------------- *)
(** *** Encodings of bytes *)

Definition hex_alphabet : str := "0123456789abcdef".

Definition hex_char (i : N) : ascii := nth (N.to_nat i) hex_alphabet "0"%char.

(** [buffer.toString("hex")]. *)
Fixpoint hex_encode (bs : list Byte.byte) : str :=
  match bs with
  | [] => []
  | b :: rest =>
      hex_char (Byte.to_N b / 16) :: hex_char (Byte.to_N b mod 16)
        :: hex_encode rest
  end.

Definition base64url_alphabet : str :=
  "ABCDEFGHIJKLMNOPQRSTUVWXYZabcdefghijklmnopqrstuvwxyz0123456789-_".

Definition base64url_char (i : N) : ascii :=
  nth (N.to_nat i) base64url_alphabet "A"%char.

(** [buffer.toString("base64url")]: three bytes give four characters, and
    the last one or two bytes give two or three; no padding. *)
Fixpoint base64url (bs : list Byte.byte) : str :=
  match bs with
  | [] => []
  | [b0] =>
      let n0 := Byte.to_N b0 in
      [base64url_char (n0 / 4); base64url_char (n0 mod 4 * 16)]
  | [b0; b1] =>
      let n0 := Byte.to_N b0 in
      let n1 := Byte.to_N b1 in
      [base64url_char (n0 / 4);
       base64url_char (n0 mod 4 * 16 + n1 / 16);
       base64url_char (n1 mod 16 * 4)]
  | b0 :: b1 :: b2 :: rest =>
      let n0 := Byte.to_N b0 in
      let n1 := Byte.to_N b1 in
      let n2 := Byte.to_N b2 in
      base64url_char (n0 / 4)
        :: base64url_char (n0 mod 4 * 16 + n1 / 16)
        :: base64url_char (n1 mod 16 * 4 + n2 / 64)
        :: base64url_char (n2 mod 64)
        :: base64url rest
  end.

(* ----------------------------------------------------------------- *)
(** *** The HMAC object *)

(** [createHmac(algorithm, key)] returns an object that collects the data
    of its [update] calls; [digest("hex")] closes it. *)
Record Hmac := {
  hmac_algorithm : str;
  hmac_key : str;
  hmac_data : str;
}.

Definition createHmac (algorithm key : str) : Hmac :=
  {| hmac_algorithm := algorithm; hmac_key := key; hmac_data := [] |}.

Definition update (h : Hmac) (data : str) : Hmac :=
  {| hmac_algorithm := hmac_algorithm h;
     hmac_key := hmac_key h;
     hmac_data := hmac_data h ++ data |}.

Definition digest_hex (rt : Runtime) (h : Hmac) : str :=
  hex_encode (hmac rt (hmac_algorithm h) (hmac_key h) (hmac_data h)).

(* ----------------------------------------------------------------- *)
(** *** The URL object and its search parameters *)

Definition is_c0_or_space (c : ascii) : bool := (code c <=? 32)%N.

Definition is_tab_or_newline (c : ascii) : bool :=
  Ascii.eqb c "009" || Ascii.eqb c "010" || Ascii.eqb c "013".

Fixpoint trim_start (s : str) : str :=
  match s with
  | c :: t => if is_c0_or_space c then trim_start t else s
  | [] => []
  end.

(** The URL parser first drops leading and trailing C0 controls and spaces,
    then every tab and newline. *)
Definition url_input (s : str) : str :=
  filter (fun c => negb (is_tab_or_newline c))
    (rev (trim_start (rev (trim_start s)))).

(** The query of a URL: the text between the first [?] and the first [#]. *)
Definition url_query (input : str) : str :=
  or_empty (after "?" (before "#" input)).

Definition plus_to_space (s : str) : str :=
  map (fun c => if Ascii.eqb c "+" then " "%char else c) s.

Definition hex_value (c : ascii) : option N :=
  match digit_value c with
  | Some d => if (d <? 16)%N then Some d else None
  | None => None
  end.

(** Percent-decoding: [%XY] with two hexadecimal digits is one byte, any
    other [%] stands for itself. The bytes are kept as code units, which is
    what [searchParams] returns for ASCII bytes; it reads the others as
    UTF-8, which can leave the alphabet of the model. *)
Fixpoint percent_decode (s : str) : str :=
  match s with
  | [] => []
  | c :: t =>
      if Ascii.eqb c "%" then
        match t with
        | a :: b :: rest =>
            match hex_value a, hex_value b with
            | Some x, Some y => ascii_of_N (16 * x + y) :: percent_decode rest
            | _, _ => c :: percent_decode t
            end
        | _ => c :: percent_decode t
        end
      else c :: percent_decode t
  end.

(** One [name=value] piece of a query: split at the first [=]; a piece
    without [=] has the empty value. *)
Definition parse_pair (piece : str) : str * str :=
  (percent_decode (plus_to_space (before "=" piece)),
   percent_decode (plus_to_space (or_empty (after "=" piece)))).

(** The [application/x-www-form-urlencoded] parser: pieces between [&],
    the empty ones skipped. *)
Definition urlencoded_parse (query : str) : list (str * str) :=
  map parse_pair (filter truthy (split_on "&" query)).

Record URL := {
  searchParams : list (str * str);
}.

(** [new URL(input)]; [None] when it throws. The parser percent-encodes
    some characters of the query and [searchParams] decodes them again; the
    model reads the query as it was written. *)
Definition new_URL (rt : Runtime) (input : str) : option URL :=
  if URL_canParse rt input
  then Some {| searchParams := urlencoded_parse (url_query (url_input input)) |}
  else None.

(** [params.get(name)]: the value of the first pair of that name, or
    [null]. *)
Fixpoint searchParams_get (params : list (str * str)) (name : str) : option str :=
  match params with
  | [] => None
  | (n, v) :: rest =>
      if str_eqb n name then Some v else searchParams_get rest name
  end.

(* ----------------------------------------------------------------- *)
(** *** The regular expression [/&sig=([^&]\w+)/g] *)

Fixpoint strip_prefix (p s : str) : option str :=
  match p, s with
  | [], _ => Some s
  | a :: p', b :: s' => if Ascii.eqb a b then strip_prefix p' s' else None
  | _ :: _, [] => None
  end.

(** The number of leading [\w] characters. *)
Fixpoint word_run (s : str) : nat :=
  match s with
  | c :: t => if is_word c then S (word_run t) else O
  | [] => O
  end.

(** The length of the match of [&sig=([^&]\w+)] at the start of [s], if
    there is one: the five characters [&sig=], one character other than
    [&], and the longest non-empty run of [\w]. *)
Definition match_sig (s : str) : option nat :=
  match strip_prefix "&sig=" s with
  | Some (c :: rest) =>
      if Ascii.eqb c "&" then None
      else match word_run rest with
           | O => None
           | S n => Some (5 + 1 + S n)%nat
           end
  | _ => None
  end.

(** [s.replace(/&sig=([^&]\w+)/g, "")] scanned from the left; [skip] counts
    the characters of the current match still to drop. *)
Fixpoint replace_from (skip : nat) (s : str) : str :=
  match s with
  | [] => []
  | c :: t =>
      match skip with
      | S k => replace_from k t
      | O =>
          match match_sig s with
          | Some (S k) => replace_from k t
          | _ => c :: replace_from O t
          end
      end
  end.

Definition replace_sig (s : str) : str := replace_from 0 s.

End Platform.

Import Platform.

(* ================================================================= *)
(** ** Errors *)

Inductive error :=
| TypeError
| NotSupportedAlgorithmError
| NotProvideKeyError
| BlackholedSignatureError
| ExpiredSignatureError
| MismatchSignatureError.

(** The [status] field of an error object (none on a [TypeError]). *)
Definition status (e : error) : option Z :=
  match e with
  | TypeError => None
  | NotSupportedAlgorithmError | NotProvideKeyError => Some 400%Z
  | BlackholedSignatureError | MismatchSignatureError => Some 403%Z
  | ExpiredSignatureError => Some 410%Z
  end.

Inductive result (A : Type) :=
| Ok (a : A)
| Throw (e : error).

Arguments Ok {A} a.
Arguments Throw {A} e.

Definition bind {A B : Type} (c : result A) (k : A -> result B) : result B :=
  match c with
  | Ok a => k a
  | Throw e => Throw e
  end.

Notation "x <- c ;; k" := (bind c (fun x => k))
  (at level 61, c at next level, right associativity).

(** [if (cond) throw e;] *)
Definition throw_if (cond : bool) (e : error) : result unit :=
  if cond then Throw e else Ok tt.

(* ================================================================= *)
(** ** The interfaces of [index.ts] *)

Definition HashFunc := str -> str.

Inductive HashOption :=
| HashName (algorithm : str)
| HashFunction (f : HashFunc).

Module SignatureOptions.
Record t := {
  key : option str;
  ttl : option Z;
  hash : option HashOption;
}.
End SignatureOptions.

(** [method?: string | string[]] *)
Inductive MethodOption :=
| Method (m : str)
| Methods (ms : list str).

Module SignOptions.
Record t := {
  method : option MethodOption;
  ttl : option Z;
  expires : option Z;
  ipAddress : option str;
}.
(** The default [options = {}]. *)
Definition empty : t :=
  {| method := None; ttl := None; expires := None; ipAddress := None |}.
End SignOptions.

Module SignatureData.
Record t := {
  method : option str;
  expires : option Z;
  ipAddress : option str;
  r : str;
}.
End SignatureData.

(** What [extractUrlData] returns; [expires] is [None] when [parseInt]
  gave [NaN]. *)
Module SignedURLData.
Record t := {
  urlWithoutSignature : str;
  expires : option Z;
  ipAddress : str;
  method : str;
  r : str;
  signature : str;
}.
End SignedURLData.

Module VerifyOptions.
Record t := {
  method : option str;
  ipAddress : option str;
}.
Definition empty : t := {| method := None; ipAddress := None |}.
End VerifyOptions.

(* ================================================================= *)
(** ** class SignUrl *)

Module SignUrl.

Record t := {
  key : option str;
  ttl : Z;
  hash : str -> result str;
}.

Section WithRuntime.

Variable rt : Runtime.

Definition isValidAlgorithm (algorithm : str) : bool :=
  includes (getHashes rt) algorithm.

(** [!!this.key] *)
Definition isProvidedKey (key : option str) : bool := truthy (or_empty key).

Definition generateSignature (key : option str) (data algorithm : str)
  : result str :=
  _ <- throw_if (negb (isProvidedKey key)) NotProvideKeyError ;;
  _ <- throw_if (negb (isValidAlgorithm algorithm)) NotSupportedAlgorithmError ;;
  Ok (digest_hex rt
        (update (update (createHmac algorithm (or_empty key)) data)
           (or_empty key))).

(** The constructor: [ttl] defaults to 30 and [hash] to ["sha256"]. *)
Definition new (options : SignatureOptions.t) : t :=
  let key := SignatureOptions.key options in
  let ttl :=
    match SignatureOptions.ttl options with Some n => n | None => 30%Z end in
  let hash :=
    match SignatureOptions.hash options with
    | Some h => h
    | None => HashName "sha256"
    end in
  {| key := key;
     ttl := ttl;
     hash :=
       match hash with
       | HashName algorithm => fun data => generateSignature key data algorithm
       | HashFunction f => fun data => Ok (f data)
       end |}.

(** A property that is a number, read as a condition. *)
Definition given (n : option Z) : bool := truthy_number n.

(** The sum inside [dayjs().add(minutes, "m")] at clock [now]:
    [this.$d.getTime() + minutes * 60000]. *)
Definition add_minutes (now minutes : Z) : Z := (now + minutes * 60000)%Z.

(** The time value of [new Date(t)]: a [Date] holds at most 8.64e15
    milliseconds on either side of the epoch, and is invalid ([NaN])
    beyond. *)
Definition time_clip (t : Z) : option Z :=
  if (Z.abs t <=? 8640000000000000)%Z then Some t else None.

(** [dayjs().add(minutes, "m").valueOf()] at clock [now]. *)
Definition add_valueOf (now minutes : Z) : option Z :=
  time_clip (add_minutes now minutes).

(** Lines 200-206 of [sign]: the [expires] attribute. The property is a
    number, [NaN] or left out; [sign] only reads it in [expires || ""], which
    is the empty text for [NaN] as for [undefined], and [None] is either. *)
Definition resolve_expires (this : t) (now : Z) (options : SignOptions.t)
  : option Z :=
  if negb (Z.eqb (ttl this) 0) then add_valueOf now (ttl this)
  else if given (SignOptions.ttl options)
  then match SignOptions.ttl options with
       | Some minutes => add_valueOf now minutes
       | None => None
       end
  else if given (SignOptions.expires options)
  then SignOptions.expires options
  else None.

(** Lines 208-210: the [method] attribute. An array is truthy even when it
    is empty. *)
Definition resolve_method (options : SignOptions.t) : option str :=
  match SignOptions.method options with
  | Some (Method m) => if truthy m then Some (toUpperCase m) else None
  | Some (Methods ms) => Some (toUpperCase (join "," ms))
  | None => None
  end.

(** Line 212. *)
Definition resolve_ipAddress (options : SignOptions.t) : option str :=
  match SignOptions.ipAddress options with
  | Some ip => if truthy ip then Some ip else None
  | None => None
  end.

(** [${expires || ""}] *)
Definition expires_text (expires : option Z) : str :=
  if truthy_number expires
  then match expires with Some z => number_to_string z | None => [] end
  else [].

(** The text [sign] appends before it computes the signature. *)
Definition with_attributes (url : str) (d : SignatureData.t) : str :=
  let prefix := if Z.eqb (indexOf url "?") (-1) then "?" else "&" in
  url ++ prefix ++ "expires=" ++ expires_text (SignatureData.expires d)
      ++ "&ip=" ++ or_empty (SignatureData.ipAddress d)
      ++ "&method=" ++ or_empty (SignatureData.method d)
      ++ "&r=" ++ SignatureData.r d.

(** [sign(url, options)] at clock [now], with [random] the sixteen bytes
    that [randomBytes(16)] returns. *)
Definition sign (this : t) (now : Z) (random : list Byte.byte)
    (url : str) (options : SignOptions.t) : result str :=
  let signatureData :=
    {| SignatureData.r := base64url random;
       SignatureData.expires := resolve_expires this now options;
       SignatureData.method := resolve_method options;
       SignatureData.ipAddress := resolve_ipAddress options |} in
  let url := with_attributes url signatureData in
  signature <- hash this url ;;
  Ok (url ++ "&sig=" ++ signature).

Definition extractUrlData (url : str) : result SignedURLData.t :=
  match new_URL rt url with
  | None => Throw TypeError
  | Some urlObj =>
      let get := searchParams_get (searchParams urlObj) in
      Ok {| SignedURLData.expires := parseInt (or_default (get "expires") "0");
            SignedURLData.ipAddress := or_empty (get "ip");
            SignedURLData.method := or_empty (get "method");
            SignedURLData.r := or_empty (get "r");
            SignedURLData.signature := or_empty (get "sig");
            SignedURLData.urlWithoutSignature := replace_sig url |}
  end.

Definition isValidURLSignature (this : t) (url signature : str) : result bool :=
  digest <- hash this url ;;
  Ok (str_eqb signature digest).

(** Line 269:
    [ipAddress && (!options.ipAddress || ipAddress !== options.ipAddress)] *)
Definition ip_rejected (d : SignedURLData.t) (options : VerifyOptions.t) : bool :=
  truthy (SignedURLData.ipAddress d)
  && (negb (truthy (or_empty (VerifyOptions.ipAddress options)))
      || negb (str_eqb (SignedURLData.ipAddress d)
                 (or_empty (VerifyOptions.ipAddress options)))).

(** Line 271:
    [method && (!options.method || method.indexOf(options.method.toUpperCase())) === -1]
    where [===] binds tighter than [&&]. *)
Definition method_rejected (d : SignedURLData.t) (options : VerifyOptions.t)
  : bool :=
  let method := SignedURLData.method d in
  let context := or_empty (VerifyOptions.method options) in
  truthy method
  && strict_eq_number
       (bool_or_number (negb (truthy context))
          (indexOf method (toUpperCase context)))
       (-1).

(** Line 273: [expires && expires < dayjs().valueOf()] *)
Definition expired (d : SignedURLData.t) (now : Z) : bool :=
  truthy_number (SignedURLData.expires d)
  && match SignedURLData.expires d with
     | Some z => (z <? now)%Z
     | None => false
     end.

(** [verify(url, options)] at clock [now]. *)
Definition verify (this : t) (now : Z) (url : str) (options : VerifyOptions.t)
  : result bool :=
  d <- extractUrlData url ;;
  _ <- throw_if (ip_rejected d options) BlackholedSignatureError ;;
  _ <- throw_if (method_rejected d options) BlackholedSignatureError ;;
  _ <- throw_if (expired d now) ExpiredSignatureError ;;
  valid <- isValidURLSignature this (SignedURLData.urlWithoutSignature d)
             (SignedURLData.signature d) ;;
  _ <- throw_if (negb valid) MismatchSignatureError ;;
  Ok true.

End WithRuntime.

End SignUrl.

(* ================================================================= *)
(** ** The express middleware [signed]

    What the middleware reads of a request, and which of its callbacks it
    calls. The error handlers are callbacks of the application: the model
    keeps them abstract and records the one that is called, with the error
    it is given. *)

Module Middleware.

(** [host] is [req.get("host")], which is [undefined] without the header;
    [clientIp] is what [requestIp.getClientIp(req)] returns, [null] when it
    finds no address. *)
Record Request := {
  protocol : str;
  host : option str;
  originalUrl : str;
  method : str;
  clientIp : option str;
}.

Record VerifierOptions (Handler : Type) := {
  useIpAddress : option bool;
  blackholed : option Handler;
  expired : option Handler;
  mismatch : option Handler;
}.

Arguments useIpAddress {Handler} _.
Arguments blackholed {Handler} _.
Arguments expired {Handler} _.
Arguments mismatch {Handler} _.

Definition defaultOptions (Handler : Type) : VerifierOptions Handler :=
  {| useIpAddress := Some false;
     blackholed := None; expired := None; mismatch := None |}.

(** What the middleware does with a request: [next()], [next(e)], or a
    call of one of the handlers with the error. *)
Inductive outcome (Handler : Type) :=
| Next
| NextError (e : error)
| Handled (h : Handler) (e : error).

Arguments Next {Handler}.
Arguments NextError {Handler} e.
Arguments Handled {Handler} h e.

(** A value in a template string: [undefined] is written out. *)
Definition template_text (o : option str) : str :=
  match o with
  | Some s => s
  | None => "undefined"
  end.

(** [`${req.protocol}://${req.get("host")}${req.originalUrl}`] *)
Definition request_url (req : Request) : str :=
  protocol req ++ "://" ++ template_text (host req) ++ originalUrl req.

(** The options the middleware passes to [verify]. *)
Definition request_context {Handler : Type} (options : VerifierOptions Handler)
    (req : Request) : VerifyOptions.t :=
  {| VerifyOptions.method := Some (method req);
     VerifyOptions.ipAddress :=
       match useIpAddress options with
       | Some true => clientIp req
       | _ => Some []
       end |}.

(** The [catch] block: a handler is called for the error of its own class
    when it is configured, and [next(e)] otherwise. *)
Definition dispatch {Handler : Type} (options : VerifierOptions Handler)
    (e : error) : outcome Handler :=
  match blackholed options, e with
  | Some h, BlackholedSignatureError => Handled h e
  | _, _ =>
      match expired options, e with
      | Some h, ExpiredSignatureError => Handled h e
      | _, _ =>
          match mismatch options, e with
          | Some h, MismatchSignatureError => Handled h e
          | _, _ => NextError e
          end
      end
  end.

(** [signed(signer, options)(req, res, next)] at clock [now]. The value
    [verify] returns is not read. *)
Definition signed {Handler : Type} (rt : Runtime) (signer : SignUrl.t)
    (options : VerifierOptions Handler) (now : Z) (req : Request)
  : outcome Handler :=
  match SignUrl.verify rt signer now (request_url req)
          (request_context options req) with
  | Ok _ => Next
  | Throw e => dispatch options e
  end.

End Middleware.

(* ================================================================= *)
(** ** Reading [base64url] text back

    The code never decodes a nonce; the decoder states that the encoding
    loses nothing. *)

Fixpoint index_in (c : ascii) (l : str) : N :=
  match l with
  | [] => 0
  | x :: t => if Ascii.eqb x c then 0 else (1 + index_in c t)%N
  end.

Definition base64url_index (c : ascii) : N := index_in c base64url_alphabet.

Fixpoint base64url_decode (s : str) : list N :=
  match s with
  | c0 :: c1 :: c2 :: c3 :: rest =>
      let i0 := base64url_index c0 in
      let i1 := base64url_index c1 in
      let i2 := base64url_index c2 in
      let i3 := base64url_index c3 in
      (i0 * 4 + i1 / 16 :: i1 mod 16 * 16 + i2 / 4 :: i2 mod 4 * 64 + i3
         :: base64url_decode rest)%N
  | [c0; c1; c2] =>
      let i0 := base64url_index c0 in
      let i1 := base64url_index c1 in
      let i2 := base64url_index c2 in
      [i0 * 4 + i1 / 16; i1 mod 16 * 16 + i2 / 4]%N
  | [c0; c1] =>
      let i0 := base64url_index c0 in
      let i1 := base64url_index c1 in
      [i0 * 4 + i1 / 16]%N
  | _ => []
  end.

(* ================================================================= *)
(** ** A runtime for closed examples: HMAC-SHA256

    The theorems below hold for every [Runtime]. Closed examples need one:
    this is the runtime whose only digest is SHA-256 (FIPS 180-4), with HMAC
    as RFC 2104 defines it. Words are 32-bit, held in [N] and reduced modulo
    [2^32] after each addition. *)

Module Sha256.

Local Open Scope N_scope.

Definition w32 (x : N) : N := x mod 4294967296.
Definition add32 (x y : N) : N := w32 (x + y).
Definition rotr (n x : N) : N := N.lor (N.shiftr x n) (w32 (N.shiftl x (32 - n))).
Definition not32 (x : N) : N := 4294967295 - x.

Definition Ch (x y z : N) : N := N.lxor (N.land x y) (N.land (not32 x) z).
Definition Maj (x y z : N) : N :=
  N.lxor (N.lxor (N.land x y) (N.land x z)) (N.land y z).
Definition Sigma0 (x : N) : N := N.lxor (N.lxor (rotr 2 x) (rotr 13 x)) (rotr 22 x).
Definition Sigma1 (x : N) : N := N.lxor (N.lxor (rotr 6 x) (rotr 11 x)) (rotr 25 x).
Definition sigma0 (x : N) : N := N.lxor (N.lxor (rotr 7 x) (rotr 18 x)) (N.shiftr x 3).
Definition sigma1 (x : N) : N := N.lxor (N.lxor (rotr 17 x) (rotr 19 x)) (N.shiftr x 10).

(** The round constants are the first 32 bits of the fractional parts of
    the cube roots of the first 64 primes, and the initial hash value those
    of the square roots of the first 8. *)
Definition is_prime (n : nat) : bool :=
  forallb (fun d => negb (Nat.eqb (n mod d) 0)) (seq 2 (n - 2)).

Definition primes : list N :=
  Eval vm_compute in map N.of_nat (filter is_prime (seq 2 310)).

(** The integer [k]-th root of [n], found bit by bit below [2^bits]. *)
Fixpoint root_bits (k : N) (bits : nat) (n r : N) : N :=
  match bits with
  | O => r
  | S b =>
      let r' := r + 2 ^ N.of_nat b in
      root_bits k b n (if r' ^ k <=? n then r' else r)
  end.

Definition K : list N :=
  Eval vm_compute in
    map (fun p => w32 (root_bits 3 40 (p * 2 ^ 96) 0)) primes.

Definition H0 : list N :=
  Eval vm_compute in
    map (fun p => w32 (root_bits 2 40 (p * 2 ^ 64) 0)) (firstn 8 primes).

(** The message followed by the bit 1, zeros, and its length in bits as a
    64-bit big-endian number: a multiple of 64 bytes. *)
Definition big_endian (width : nat) (x : N) : list N :=
  map (fun i => (x / 256 ^ N.of_nat i) mod 256) (rev (seq 0 width)).

Definition pad (msg : list N) : list N :=
  let len := N.of_nat (length msg) in
  let zeros := N.to_nat ((119 - len mod 64) mod 64) in
  msg ++ [128] ++ repeat 0 zeros ++ big_endian 8 (8 * len).

Fixpoint words_of_bytes (bs : list N) : list N :=
  match bs with
  | b0 :: b1 :: b2 :: b3 :: rest =>
      (((b0 * 256 + b1) * 256 + b2) * 256 + b3) :: words_of_bytes rest
  | _ => []
  end.

(** The message schedule, latest word first: [n] more words after [w]. *)
Fixpoint schedule (n : nat) (w : list N) : list N :=
  match n with
  | O => w
  | S n' =>
      let wt := add32 (add32 (sigma1 (nth 1 w 0)) (nth 6 w 0))
                  (add32 (sigma0 (nth 14 w 0)) (nth 15 w 0)) in
      schedule n' (wt :: w)
  end.

Record state := {
  sa : N; sb : N; sc : N; sd : N; se : N; sf : N; sg : N; sh : N;
}.

Definition round (s : state) (kw : N * N) : state :=
  let t1 := add32 (add32 (add32 (sh s) (Sigma1 (se s)))
                     (add32 (Ch (se s) (sf s) (sg s)) (fst kw))) (snd kw) in
  let t2 := add32 (Sigma0 (sa s)) (Maj (sa s) (sb s) (sc s)) in
  {| sa := add32 t1 t2; sb := sa s; sc := sb s; sd := sc s;
     se := add32 (sd s) t1; sf := se s; sg := sf s; sh := sg s |}.

Definition state_of (h : list N) : state :=
  {| sa := nth 0 h 0; sb := nth 1 h 0; sc := nth 2 h 0; sd := nth 3 h 0;
     se := nth 4 h 0; sf := nth 5 h 0; sg := nth 6 h 0; sh := nth 7 h 0 |}.

Definition words_of_state (s : state) : list N :=
  [sa s; sb s; sc s; sd s; se s; sf s; sg s; sh s].

Definition compress (h : list N) (block : list N) : list N :=
  let w := rev (schedule 48 (rev (words_of_bytes block))) in
  let s := fold_left round (combine K w) (state_of h) in
  map (fun p => add32 (fst p) (snd p)) (combine h (words_of_state s)).

(** One block of 64 bytes per step; [n] counts the blocks. *)
Fixpoint blocks (n : nat) (h : list N) (bs : list N) : list N :=
  match n with
  | O => h
  | S n' => blocks n' (compress h (firstn 64 bs)) (skipn 64 bs)
  end.

Definition sha256 (msg : list N) : list N :=
  let padded := pad msg in
  flat_map (big_endian 4) (blocks (length padded / 64) H0 padded).

(** RFC 2104 with a block of 64 bytes. *)
Definition hmac_sha256 (key msg : list N) : list N :=
  let k := if (64 <? N.of_nat (length key)) then sha256 key else key in
  let k := k ++ repeat 0 (64 - length k) in
  sha256 (map (N.lxor 0x5c) k ++ sha256 (map (N.lxor 0x36) k ++ msg)).

(** The UTF-8 bytes of a string of 8-bit code units. *)
Definition utf8 (s : str) : list N :=
  flat_map (fun c => if code c <? 128 then [code c]
                     else [192 + code c / 64; 128 + code c mod 64]) s.

Definition to_bytes (l : list N) : list Byte.byte :=
  map (fun n => byte_of_ascii (ascii_of_N n)) l.

End Sha256.

(** A URL as the example runtime accepts it: a scheme (a letter, then
    letters, digits, [+], [-] and [.]) closed by a colon. Hosts are not
    checked. *)
Fixpoint scheme_rest (s : str) : bool :=
  match s with
  | [] => false
  | c :: t =>
      if Ascii.eqb c ":" then true
      else if is_lower c || is_upper c || is_digit c
              || Ascii.eqb c "+" || Ascii.eqb c "-" || Ascii.eqb c "."
      then scheme_rest t
      else false
  end.

Definition has_scheme (s : str) : bool :=
  match url_input s with
  | c :: t => (is_lower c || is_upper c) && scheme_rest t
  | [] => false
  end.

Definition example_runtime : Runtime :=
  {| getHashes := ["sha256"];
     hmac := fun _ key data =>
       Sha256.to_bytes (Sha256.hmac_sha256 (Sha256.utf8 key) (Sha256.utf8 data));
     URL_canParse := has_scheme |}.

(** The signer of the README and of [test/index.ts]: [{key: "abc"}]. *)
Definition readme_signer : SignUrl.t :=
  SignUrl.new example_runtime
    {| SignatureOptions.key := Some "abc";
       SignatureOptions.ttl := None;
       SignatureOptions.hash := None |}.

Definition readme_url : str :=
  "http://localhost:8080/example?expires=1692277975099&ip=&method=GET&r=KJ2Wxrgp9LCdmZxMIkv9UQ&sig=790c6a7fcccfdd9bb80c32bd3cd64c7965bbe8ed3fa377eacc7c1dea2517f6ce".

(* ================================================================= *)
(** ** Inputs that survive the trip through a query string *)

Module Shape.

(** No character of [s] is [c]. *)
Definition lacks (c : ascii) (s : str) : bool :=
  forallb (fun x => negb (Ascii.eqb x c)) s.

(** A character that a query value carries unchanged: neither a delimiter
    ([&], [#]), nor an escape ([%], [+]), nor a tab or newline (which the
    URL parser drops). The parser escapes a space, a control or a character
    above ASCII, and [searchParams] reads each back as it was. *)
Definition is_plain (c : ascii) : bool :=
  negb (Ascii.eqb c "&" || Ascii.eqb c "#" || Ascii.eqb c "%"
        || Ascii.eqb c "+" || is_tab_or_newline c).

Definition plain (s : str) : bool := forallb is_plain s.

(** The three letters that [toUpperCase_char] cannot follow ([U+00B5],
    [U+00DF], [U+00FF]), and text without them. *)
Definition leaves_alphabet (c : ascii) : bool :=
  N.eqb (code c) 181 || N.eqb (code c) 223 || N.eqb (code c) 255.

Definition cased (s : str) : bool :=
  forallb (fun c => negb (leaves_alphabet c)) s.

Definition method_names (m : MethodOption) : list str :=
  match m with
  | Method s => [s]
  | Methods ms => ms
  end.

(** The attributes a caller passes to [sign] are plain text, and the
    method names are text that the model upper-cases as the platform does. *)
Definition plain_options (options : SignOptions.t) : bool :=
  plain (or_empty (SignOptions.ipAddress options))
  && match SignOptions.method options with
     | Some m => forallb (fun name => plain name && cased name) (method_names m)
     | None => true
     end.

(** The names [verify] reads from the query. *)
Definition attribute_names : list str := ["expires"; "ip"; "method"; "sig"].

(** What the URL parser makes of [url] when text follows it: the leading
    controls and spaces are dropped, and every tab and newline. *)
Definition url_head (url : str) : str :=
  filter (fun c => negb (is_tab_or_newline c)) (trim_start url).

(** [url], once [sign] has extended it, has a query parameter [name] of
    its own. *)
Definition has_parameter (url name : str) : bool :=
  match searchParams_get (urlencoded_parse (url_query (url_head url))) name with
  | Some _ => true
  | None => false
  end.

(** A URL that [sign] can extend and [verify] can read back: no fragment,
    no [&sig=] in it, and none of the attribute names among its own query
    parameters. *)
Definition signable (url : str) : bool :=
  lacks "#" url
  && Z.eqb (indexOf url "&sig=") (-1)
  && forallb (fun name => negb (has_parameter url name)) attribute_names.

(** A digest that the regular expression of [extractUrlData] removes whole:
    two characters or more, all of them of the class [\w]. *)
Definition word_digest (s : str) : bool :=
  (2 <=? length s)%nat && forallb is_word s.

(** The query text of a list of pairs: [name=value] joined by [&]. The
    template string of [sign] writes its attributes in this form. *)
Definition serialize (pairs : list (str * str)) : str :=
  join "&" (map (fun p => fst p ++ "=" ++ snd p) pairs).

(** The pairs [sign] appends to a URL, in order, and the character it puts
    in front of them. *)
Definition attribute_pairs (d : SignatureData.t) : list (str * str) :=
  [ ("expires", SignUrl.expires_text (SignatureData.expires d));
    ("ip", or_empty (SignatureData.ipAddress d));
    ("method", or_empty (SignatureData.method d));
    ("r", SignatureData.r d) ].

Definition separator (url : str) : ascii :=
  if lacks "?" url then "?"%char else "&"%char.

(** The attributes of a signature are plain text. *)
Definition plain_attributes (d : SignatureData.t) : bool :=
  plain (or_empty (SignatureData.ipAddress d))
  && plain (or_empty (SignatureData.method d))
  && plain (SignatureData.r d).

(** A pair that the query parser reads back as it was written. *)
Definition plain_pair (p : str * str) : bool :=
  truthy (fst p) && lacks "=" (fst p) && plain (fst p) && plain (snd p).

(** Lowercase hexadecimal digits, and the alphabet of [base64url]. *)
Definition is_lower_hex (c : ascii) : bool := is_digit c || in_range 97 102 c.

Definition is_base64url (c : ascii) : bool := is_word c || Ascii.eqb c "-".

(** The context passes the IP the signature is bound to, if it is bound. *)
Definition ip_matches (options : SignOptions.t) (context : VerifyOptions.t)
  : Prop :=
  match SignOptions.ipAddress options with
  | Some (c :: ip) => VerifyOptions.ipAddress context = Some (c :: ip)
  | _ => True
  end.

(** The context passes one of the signed methods, in any letter case. *)
Definition method_matches (options : SignOptions.t) (context : VerifyOptions.t)
  : Prop :=
  match SignOptions.method options with
  | Some m =>
      exists c name,
        VerifyOptions.method context = Some c
        /\ In name (method_names m)
        /\ toUpperCase c = toUpperCase name
  | None => True
  end.

(** [Number.isSafeInteger]: an integer that a JavaScript number holds
    exactly, written in plain decimal digits and read back by [parseInt]
    as it was. An expiry that [sign] resolved is written and read back as
    it is when it is a safe integer, or when there is none. *)
Definition safe_integer (z : Z) : bool := (Z.abs z <=? 9007199254740991)%Z.

Definition safe_expiry (expires : option Z) : bool :=
  match expires with
  | Some z => safe_integer z
  | None => true
  end.

(** The clock has not passed the expiry that [sign] resolved. *)
Definition not_after (now : Z) (expires : option Z) : Prop :=
  match expires with
  | Some z => (now <= z)%Z
  | None => True
  end.

End Shape.

Import Shape.

(* ================================================================= *)
(** ** Inputs of the closed examples *)

Definition bytes_of (codes : list nat) : list Byte.byte :=
  map (fun n => byte_of_ascii (ascii_of_nat n)) codes.

(** Sixteen bytes whose [base64url] text is the nonce of the README's URL,
    [KJ2Wxrgp9LCdmZxMIkv9UQ]. *)
Definition example_random : list Byte.byte :=
  bytes_of [40; 157; 150; 198; 184; 41; 244; 176;
            157; 153; 156; 76; 34; 75; 253; 81].

(** The scenario of the specification: key ["abc"], ttl 0, and
    [{method: "GET", expires: 1700000000000}]. *)
Definition scenario_signer : SignUrl.t :=
  SignUrl.new example_runtime
    {| SignatureOptions.key := Some "abc";
       SignatureOptions.ttl := Some 0%Z;
       SignatureOptions.hash := Some (HashName "sha256") |}.

Definition scenario_options : SignOptions.t :=
  {| SignOptions.method := Some (Method "GET");
     SignOptions.ttl := None;
     SignOptions.expires := Some 1700000000000%Z;
     SignOptions.ipAddress := None |}.

Definition context_of (method ipAddress : option str) : VerifyOptions.t :=
  {| VerifyOptions.method := method; VerifyOptions.ipAddress := ipAddress |}.

(** A URL that the scenario's signer signs for the address [1.2.3.4], and
    what [extractUrlData] reads in it. *)
Definition bound_options : SignOptions.t :=
  {| SignOptions.method := Some (Method "GET");
     SignOptions.ttl := None;
     SignOptions.expires := Some 1700000000000%Z;
     SignOptions.ipAddress := Some "1.2.3.4" |}.

Definition bound_url : str :=
  "http://x/y?expires=1700000000000&ip=1.2.3.4&method=GET&r=KJ2Wxrgp9LCdmZxMIkv9UQ&sig=a8991e55552638e38ae410df8955abc1aa7d2ff7f563add2fc4fc903003bb339".

Definition bound_data : SignedURLData.t :=
  {| SignedURLData.urlWithoutSignature :=
       "http://x/y?expires=1700000000000&ip=1.2.3.4&method=GET&r=KJ2Wxrgp9LCdmZxMIkv9UQ";
     SignedURLData.expires := Some 1700000000000%Z;
     SignedURLData.ipAddress := "1.2.3.4";
     SignedURLData.method := "GET";
     SignedURLData.r := "KJ2Wxrgp9LCdmZxMIkv9UQ";
     SignedURLData.signature :=
       "a8991e55552638e38ae410df8955abc1aa7d2ff7f563add2fc4fc903003bb339" |}.

(** Options that allow the one method [WIDGET]. *)
Definition widget_options : SignOptions.t :=
  {| SignOptions.method := Some (Methods ["WIDGET"]);
     SignOptions.ttl := None;
     SignOptions.expires := Some 1700000000000%Z;
     SignOptions.ipAddress := None |}.

(** Options that pass [ttl: 0] next to an expiry. *)
Definition zero_ttl_options : SignOptions.t :=
  {| SignOptions.method := None;
     SignOptions.ttl := Some 0%Z;
     SignOptions.expires := Some 1700000000000%Z;
     SignOptions.ipAddress := None |}.

(** A signer without a key, for an algorithm the runtime does not have. *)
Definition keyless_signer : SignUrl.t :=
  SignUrl.new example_runtime
    {| SignatureOptions.key := None;
       SignatureOptions.ttl := None;
       SignatureOptions.hash := Some (HashName "md999") |}.

(** The application of [test/index.ts]: it signs
    [http://localhost:8080/example] for the method [get], and a browser
    follows the link. The clock of the signature is thirty minutes before
    the expiry in the README's URL. *)
Definition test_options : SignOptions.t :=
  {| SignOptions.method := Some (Method "get");
     SignOptions.ttl := None;
     SignOptions.expires := None;
     SignOptions.ipAddress := None |}.

Definition test_clock : Z := 1692276175099%Z.

Definition test_request : Middleware.Request :=
  {| Middleware.protocol := "http";
     Middleware.host := Some "localhost:8080";
     Middleware.originalUrl :=
       "/example?expires=1692277975099&ip=&method=GET&r=KJ2Wxrgp9LCdmZxMIkv9UQ&sig=790c6a7fcccfdd9bb80c32bd3cd64c7965bbe8ed3fa377eacc7c1dea2517f6ce";
     Middleware.method := "GET";
     Middleware.clientIp := Some "127.0.0.1" |}.

(** A request for the URL bound to [1.2.3.4], from that address. *)
Definition bound_request : Middleware.Request :=
  {| Middleware.protocol := "http";
     Middleware.host := Some "x";
     Middleware.originalUrl :=
       "/y?expires=1700000000000&ip=1.2.3.4&method=GET&r=KJ2Wxrgp9LCdmZxMIkv9UQ&sig=a8991e55552638e38ae410df8955abc1aa7d2ff7f563add2fc4fc903003bb339";
     Middleware.method := "GET";
     Middleware.clientIp := Some "1.2.3.4" |}.

(** A URL with a space in front and a tab inside, and options whose
    address and methods have a space and letters above ASCII. *)
Definition spaced_url : str := " http://x/y" ++ "009"%char :: "?a=1".

Definition latin_options : SignOptions.t :=
  {| SignOptions.method := Some (Methods ["get"; ["p"; "233"]%char]);
     SignOptions.ttl := None;
     SignOptions.expires := Some 1700000000000%Z;
     SignOptions.ipAddress := Some ("1.2.3.4 " ++ ["233"%char]) |}.

(** A digest function of the caller's own: a letter and the length of the
    text. *)
Definition length_hash : HashFunc :=
  fun data => "h"%char :: number_to_string (Z.of_nat (length data)).

Definition custom_signer : SignUrl.t :=
  SignUrl.new example_runtime
    {| SignatureOptions.key := None;
       SignatureOptions.ttl := Some 0%Z;
       SignatureOptions.hash := Some (HashFunction length_hash) |}.

(* ================================================================= *)
(** * Properties *)

(** ** Characters and strings *)

Ltac ascii_cases c :=
  destruct c as [[|] [|] [|] [|] [|] [|] [|] [|]]; vm_compute;
  try reflexivity; try discriminate; auto.

Lemma forallb_implies (P Q : ascii -> bool) (s : str) :
  (forall c, P c = true -> Q c = true) ->
  forallb P s = true -> forallb Q s = true.
Proof.
  intros HPQ. induction s as [|c s IH]; simpl; [reflexivity|].
  intros H. apply andb_true_iff in H as [Hc Hs].
  rewrite (HPQ c Hc), (IH Hs). reflexivity.
Qed.

Lemma str_eqb_refl (s : str) : str_eqb s s = true.
Proof.
  induction s as [|c s IH]; simpl; [reflexivity|].
  rewrite Ascii.eqb_refl, IH. reflexivity.
Qed.

Lemma str_eqb_eq (a b : str) : str_eqb a b = true <-> a = b.
Proof.
  split; [|intros ->; apply str_eqb_refl].
  revert b. induction a as [|x a IH]; intros [|y b]; simpl; try discriminate.
  - reflexivity.
  - intros H. apply andb_true_iff in H as [Hx Ha].
    apply Ascii.eqb_eq in Hx. rewrite Hx, (IH b Ha). reflexivity.
Qed.

Lemma includes_In (l : list str) (x : str) : includes l x = true <-> In x l.
Proof.
  unfold includes. rewrite existsb_exists. split.
  - intros (y & Hy & E). apply str_eqb_eq in E. subst. exact Hy.
  - intros H. exists x. split; [exact H | apply str_eqb_refl].
Qed.

Lemma lacks_app (c : ascii) (a b : str) :
  lacks c (a ++ b) = lacks c a && lacks c b.
Proof. apply forallb_app. Qed.

Lemma is_plain_lacks (c x : ascii) :
  In x ["&"; "#"; "%"; "+"; "009"; "010"; "013"]%char -> is_plain c = true ->
  negb (Ascii.eqb c x) = true.
Proof.
  intros Hx Hc. destruct (Ascii.eqb c x) eqn:E; [|reflexivity].
  apply Ascii.eqb_eq in E. subst c. simpl in Hx.
  repeat (destruct Hx as [<-|Hx]; [discriminate Hc|]). destruct Hx.
Qed.

Lemma plain_lacks (x : ascii) (s : str) :
  In x ["&"; "#"; "%"; "+"; "009"; "010"; "013"]%char -> plain s = true ->
  lacks x s = true.
Proof.
  intros Hx. apply forallb_implies. intros c. apply is_plain_lacks, Hx.
Qed.

Lemma is_plain_not_tab (c : ascii) :
  is_plain c = true -> negb (is_tab_or_newline c) = true.
Proof. ascii_cases c. Qed.

Lemma is_word_plain (c : ascii) : is_word c = true -> is_plain c = true.
Proof. ascii_cases c. Qed.

Lemma is_digit_word (c : ascii) : is_digit c = true -> is_word c = true.
Proof. unfold is_word. intros ->. reflexivity. Qed.

Lemma toUpperCase_char_plain (c : ascii) :
  is_plain c = true -> is_plain (toUpperCase_char c) = true.
Proof. ascii_cases c. Qed.

Lemma toUpperCase_char_idempotent (c : ascii) :
  toUpperCase_char (toUpperCase_char c) = toUpperCase_char c.
Proof. ascii_cases c. Qed.

Lemma toUpperCase_idempotent (s : str) :
  toUpperCase (toUpperCase s) = toUpperCase s.
Proof.
  unfold toUpperCase. rewrite map_map. apply map_ext.
  intros c. apply toUpperCase_char_idempotent.
Qed.

Lemma toUpperCase_app (a b : str) :
  toUpperCase (a ++ b) = toUpperCase a ++ toUpperCase b.
Proof. apply map_app. Qed.

Lemma toUpperCase_plain (s : str) :
  plain s = true -> plain (toUpperCase s) = true.
Proof.
  unfold plain, toUpperCase. induction s as [|c s IH]; simpl; [reflexivity|].
  intros H. apply andb_true_iff in H as [Hc Hs].
  rewrite (toUpperCase_char_plain c Hc), (IH Hs). reflexivity.
Qed.

Lemma toUpperCase_join (sep : str) (parts : list str) :
  toUpperCase (join sep parts)
  = join (toUpperCase sep) (map toUpperCase parts).
Proof.
  induction parts as [|p [|q rest] IH]; try reflexivity.
  change (join sep (p :: q :: rest)) with (p ++ sep ++ join sep (q :: rest)).
  rewrite !toUpperCase_app, IH. reflexivity.
Qed.

Lemma plain_app (a b : str) : plain (a ++ b) = plain a && plain b.
Proof. apply forallb_app. Qed.

Lemma plain_join_comma (parts : list str) :
  forallb plain parts = true -> plain (join "," parts) = true.
Proof.
  induction parts as [|p [|q rest] IH]; simpl forallb; intros H.
  - reflexivity.
  - simpl. rewrite andb_true_r in H. exact H.
  - apply andb_true_iff in H as [Hp Hrest].
    change (join "," (p :: q :: rest)) with (p ++ "," ++ join "," (q :: rest)).
    rewrite !plain_app, Hp, (IH Hrest). reflexivity.
Qed.

(** A string occurs in the comma-joined list it is an element of. *)
Lemma join_contains (sep : str) (parts : list str) (p : str) :
  In p parts -> exists a b, join sep parts = a ++ p ++ b.
Proof.
  induction parts as [|q [|q' rest] IH]; intros Hin.
  - destruct Hin.
  - destruct Hin as [->|[]]. exists [], []. simpl. rewrite app_nil_r. reflexivity.
  - change (join sep (q :: q' :: rest)) with (q ++ sep ++ join sep (q' :: rest)).
    destruct Hin as [->|Hin].
    + exists [], (sep ++ join sep (q' :: rest)). reflexivity.
    + destruct (IH Hin) as (a & b & E). rewrite E.
      exists (q ++ sep ++ a), b. rewrite <- !app_assoc. reflexivity.
Qed.

(** ** [indexOf] *)

Lemma starts_with_app (p rest : str) : starts_with p (p ++ rest) = true.
Proof.
  induction p as [|c p IH]; simpl; [reflexivity|].
  rewrite Ascii.eqb_refl. exact IH.
Qed.

Lemma indexOf_from_range (s p : str) (i : Z) :
  indexOf_from s p i = (-1)%Z \/ (i <= indexOf_from s p i)%Z.
Proof.
  revert i. induction s as [|c s IH]; intros i; simpl.
  - destruct (starts_with p []); [right; lia | left; reflexivity].
  - destruct (starts_with p (c :: s)); [right; lia|].
    destruct (IH (i + 1)%Z) as [E|E]; [left; exact E | right; lia].
Qed.

(** A string that occurs is found. *)
Lemma indexOf_from_found (a p b : str) (i : Z) :
  (0 <= i)%Z -> (0 <= indexOf_from (a ++ p ++ b) p i)%Z.
Proof.
  revert i. induction a as [|c a IH]; intros i Hi.
  - simpl app. pose proof (starts_with_app p b) as Hs.
    destruct (p ++ b) as [|x t] eqn:E; simpl; rewrite Hs; exact Hi.
  - simpl. destruct (starts_with p (c :: a ++ p ++ b)); [exact Hi|].
    apply IH. lia.
Qed.

Lemma indexOf_found (a p b : str) :
  Z.eqb (indexOf (a ++ p ++ b) p) (-1) = false.
Proof.
  apply Z.eqb_neq. pose proof (indexOf_from_found a p b 0 (Z.le_refl 0)).
  unfold indexOf. lia.
Qed.

(** Searching for one character: -1 exactly when the string lacks it. *)
Lemma indexOf_from_char (c : ascii) (s : str) (i : Z) :
  (0 <= i)%Z -> Z.eqb (indexOf_from s [c] i) (-1) = lacks c s.
Proof.
  revert i. induction s as [|x s IH]; intros i Hi; simpl.
  - reflexivity.
  - rewrite (Ascii.eqb_sym c x). destruct (Ascii.eqb x c); simpl.
    + apply Z.eqb_neq. lia.
    + apply IH. lia.
Qed.

Lemma indexOf_char (c : ascii) (s : str) :
  Z.eqb (indexOf s [c]) (-1) = lacks c s.
Proof. apply indexOf_from_char. lia. Qed.

(** ** Cutting a string at a character *)

Lemma before_lacks (c : ascii) (s : str) : lacks c s = true -> before c s = s.
Proof.
  induction s as [|x s IH]; simpl; [reflexivity|].
  intros H. apply andb_true_iff in H as [Hx Hs].
  apply negb_true_iff in Hx. rewrite Hx, (IH Hs). reflexivity.
Qed.

Lemma after_lacks (c : ascii) (s : str) : lacks c s = true -> after c s = None.
Proof.
  induction s as [|x s IH]; simpl; [reflexivity|].
  intros H. apply andb_true_iff in H as [Hx Hs].
  apply negb_true_iff in Hx. rewrite Hx. exact (IH Hs).
Qed.

Lemma after_None_lacks (c : ascii) (s : str) : after c s = None -> lacks c s = true.
Proof.
  induction s as [|x s IH]; simpl; [reflexivity|].
  destruct (Ascii.eqb x c); [discriminate|]. intros H. exact (IH H).
Qed.

Lemma after_app_Some (c : ascii) (s q rest : str) :
  after c s = Some q -> after c (s ++ rest) = Some (q ++ rest).
Proof.
  induction s as [|x s IH]; simpl; [discriminate|].
  destruct (Ascii.eqb x c).
  - intros [= <-]. reflexivity.
  - exact IH.
Qed.

Lemma after_app_None (c : ascii) (s rest : str) :
  after c s = None -> after c (s ++ c :: rest) = Some rest.
Proof.
  induction s as [|x s IH]; simpl.
  - rewrite Ascii.eqb_refl. reflexivity.
  - destruct (Ascii.eqb x c); [discriminate | exact IH].
Qed.

Lemma split_on_not_nil (sep : ascii) (s : str) : split_on sep s <> [].
Proof.
  destruct s as [|c s]; simpl; [discriminate|].
  destruct (Ascii.eqb c sep); [discriminate|].
  destruct (split_on sep s); discriminate.
Qed.

Lemma split_on_lacks (sep : ascii) (s : str) :
  lacks sep s = true -> split_on sep s = [s].
Proof.
  induction s as [|c s IH]; simpl; [reflexivity|].
  intros H. apply andb_true_iff in H as [Hc Hs].
  apply negb_true_iff in Hc. rewrite Hc, (IH Hs). reflexivity.
Qed.

Lemma split_on_app (sep : ascii) (a b : str) :
  split_on sep (a ++ sep :: b) = split_on sep a ++ split_on sep b.
Proof.
  induction a as [|c a IH]; simpl.
  - rewrite Ascii.eqb_refl. reflexivity.
  - destruct (Ascii.eqb c sep); [rewrite IH; reflexivity|].
    rewrite IH. pose proof (split_on_not_nil sep a) as Hn.
    destruct (split_on sep a) as [|seg segs]; [contradiction|]. reflexivity.
Qed.

(** A piece without [sep] in front of a separator is the first piece. *)
Lemma split_on_first (sep : ascii) (a b : str) :
  lacks sep a = true -> split_on sep (a ++ sep :: b) = a :: split_on sep b.
Proof.
  intros Ha. rewrite split_on_app, (split_on_lacks sep a Ha). reflexivity.
Qed.

(** ** Decoding a query *)

Lemma plus_to_space_lacks (s : str) : lacks "+" s = true -> plus_to_space s = s.
Proof.
  induction s as [|c s IH]; simpl; [reflexivity|].
  intros H. apply andb_true_iff in H as [Hc Hs].
  apply negb_true_iff in Hc. rewrite Hc, (IH Hs). reflexivity.
Qed.

Lemma percent_decode_lacks (s : str) : lacks "%" s = true -> percent_decode s = s.
Proof.
  induction s as [|c s IH]; simpl; [reflexivity|].
  intros H. apply andb_true_iff in H as [Hc Hs].
  apply negb_true_iff in Hc. rewrite Hc, (IH Hs). reflexivity.
Qed.

Lemma decode_plain (s : str) :
  plain s = true -> percent_decode (plus_to_space s) = s.
Proof.
  intros H. rewrite plus_to_space_lacks, percent_decode_lacks.
  - reflexivity.
  - apply plain_lacks; [simpl; tauto | exact H].
  - apply plain_lacks; [simpl; tauto | exact H].
Qed.

Lemma urlencoded_parse_app (a b : str) :
  urlencoded_parse (a ++ "&"%char :: b)
  = urlencoded_parse a ++ urlencoded_parse b.
Proof.
  unfold urlencoded_parse. rewrite split_on_app, filter_app, map_app.
  reflexivity.
Qed.

Lemma urlencoded_parse_first (a b : str) :
  lacks "&" a = true -> truthy a = true ->
  urlencoded_parse (a ++ "&"%char :: b) = parse_pair a :: urlencoded_parse b.
Proof.
  intros Ha Ht. unfold urlencoded_parse.
  rewrite (split_on_first _ a b Ha). simpl. rewrite Ht. reflexivity.
Qed.

Lemma urlencoded_parse_last (a : str) :
  lacks "&" a = true -> truthy a = true -> urlencoded_parse a = [parse_pair a].
Proof.
  intros Ha Ht. unfold urlencoded_parse.
  rewrite (split_on_lacks _ a Ha). simpl. rewrite Ht. reflexivity.
Qed.

Lemma searchParams_get_app (l1 l2 : list (str * str)) (name : str) :
  searchParams_get (l1 ++ l2) name
  = match searchParams_get l1 name with
    | Some v => Some v
    | None => searchParams_get l2 name
    end.
Proof.
  induction l1 as [|[n v] l1 IH]; simpl; [reflexivity|].
  destruct (str_eqb n name); [reflexivity | exact IH].
Qed.

(** ** The input of the URL parser *)

Lemma filter_all (P : ascii -> bool) (s : str) :
  forallb P s = true -> filter P s = s.
Proof.
  induction s as [|c s IH]; simpl; [reflexivity|].
  intros H. apply andb_true_iff in H as [Hc Hs].
  rewrite Hc, (IH Hs). reflexivity.
Qed.

Lemma is_word_not_c0 (c : ascii) : is_word c = true -> is_c0_or_space c = false.
Proof. ascii_cases c. Qed.

Lemma trim_start_app (a b : str) (c : ascii) :
  is_c0_or_space c = false -> trim_start (a ++ c :: b) = trim_start a ++ c :: b.
Proof.
  intros Hc. induction a as [|x a IH]; cbn [app trim_start].
  - rewrite Hc. reflexivity.
  - destruct (is_c0_or_space x); [exact IH | reflexivity].
Qed.

(** Text that follows a URL, begins and ends with a character that is
    neither a space nor a control, and has no tab or newline, reaches the
    URL parser as it is; in front of it the parser drops the leading spaces
    and controls of the URL, and its tabs and newlines. *)
Lemma url_input_app (a t : str) (c z : ascii) :
  is_c0_or_space c = false -> is_c0_or_space z = false ->
  forallb (fun x => negb (is_tab_or_newline x)) (c :: t ++ [z]) = true ->
  url_input (a ++ c :: t ++ [z]) = url_head a ++ c :: t ++ [z].
Proof.
  intros Hc Hz Htab. unfold url_input, url_head.
  rewrite (trim_start_app a (t ++ [z]) c Hc).
  change (trim_start a ++ c :: t ++ [z])
    with (trim_start a ++ (c :: t) ++ [z]).
  rewrite app_assoc, rev_unit. cbn [trim_start]. rewrite Hz.
  cbn [rev]. rewrite rev_involutive, <- app_assoc, filter_app.
  f_equal. apply filter_all, Htab.
Qed.

Lemma lacks_filter (c : ascii) (P : ascii -> bool) (s : str) :
  P c = true -> lacks c (filter P s) = lacks c s.
Proof.
  intros Hc. unfold lacks. induction s as [|x s IH]; [reflexivity|].
  cbn [filter]. destruct (P x) eqn:Hx; cbn [forallb]; rewrite IH.
  - reflexivity.
  - destruct (Ascii.eqb x c) eqn:E; [|reflexivity].
    apply Ascii.eqb_eq in E. subst x. congruence.
Qed.

Lemma lacks_trim_start (c : ascii) (s : str) :
  is_c0_or_space c = false -> lacks c (trim_start s) = lacks c s.
Proof.
  intros Hc. unfold lacks. induction s as [|x s IH]; [reflexivity|].
  cbn [trim_start]. destruct (is_c0_or_space x) eqn:Hx; [|reflexivity].
  rewrite IH. cbn [forallb].
  destruct (Ascii.eqb x c) eqn:E; [|reflexivity].
  apply Ascii.eqb_eq in E. subst x. congruence.
Qed.

(** The parser keeps every [?] and [#] of the URL. *)
Lemma lacks_url_head (c : ascii) (url : str) :
  is_c0_or_space c = false -> lacks c (url_head url) = lacks c url.
Proof.
  intros Hc. unfold url_head.
  rewrite lacks_filter, (lacks_trim_start c url Hc); [reflexivity|].
  destruct (is_tab_or_newline c) eqn:E; [|reflexivity].
  revert Hc E. ascii_cases c.
Qed.

(** ** Numbers as text *)

Lemma chars_of_uint_digits (u : Decimal.uint) :
  forallb is_digit (chars_of_uint u) = true.
Proof. induction u; simpl; auto. Qed.

Lemma chars_of_uint_truthy (u : Decimal.uint) :
  u <> Decimal.Nil -> truthy (chars_of_uint u) = true.
Proof. destruct u; simpl; congruence. Qed.

Lemma parse_digits_step (c : ascii) (d : N) (t : str) (acc : N) (seen : bool) :
  digit_value c = Some d -> (d <? 10)%N = true ->
  parse_digits 10 (c :: t) acc seen = parse_digits 10 t (10 * acc + d) true.
Proof. intros Hc Hd. simpl. rewrite Hc, Hd. reflexivity. Qed.

Ltac digit_case d IH :=
  cbn [chars_of_uint Pos.of_uint_acc];
  rewrite (parse_digits_step _ d) by reflexivity;
  rewrite <- IH; f_equal; lia.

Lemma parse_digits_acc (u : Decimal.uint) (p : positive) :
  parse_digits 10 (chars_of_uint u) (Npos p) true
  = Some (Npos (Pos.of_uint_acc u p)).
Proof.
  revert p. induction u as [|u IH|u IH|u IH|u IH|u IH|u IH|u IH|u IH|u IH|u IH];
    intros p;
    [ reflexivity
    | digit_case 0%N IH | digit_case 1%N IH | digit_case 2%N IH
    | digit_case 3%N IH | digit_case 4%N IH | digit_case 5%N IH
    | digit_case 6%N IH | digit_case 7%N IH | digit_case 8%N IH
    | digit_case 9%N IH ].
Qed.

Lemma parse_digits_zero (u : Decimal.uint) :
  parse_digits 10 (chars_of_uint u) 0 true = Some (Pos.of_uint u).
Proof.
  induction u as [|u IH|u IH|u IH|u IH|u IH|u IH|u IH|u IH|u IH|u IH];
    [reflexivity | exact IH | | | | | | | | |];
    apply (parse_digits_acc u).
Qed.

Lemma parse_digits_first (u : Decimal.uint) (acc : N) :
  u <> Decimal.Nil ->
  parse_digits 10 (chars_of_uint u) acc false
  = parse_digits 10 (chars_of_uint u) acc true.
Proof. destruct u; [congruence | reflexivity ..]. Qed.

Lemma strip_radix_prefix_digits (u : Decimal.uint) :
  strip_radix_prefix (chars_of_uint u) = (10%N, chars_of_uint u).
Proof. destruct u as [|u|u|u|u|u|u|u|u|u|u]; try reflexivity; destruct u; reflexivity. Qed.

Lemma parseInt_digits (u : Decimal.uint) :
  u <> Decimal.Nil ->
  parseInt (chars_of_uint u) = Some (Z.of_N (Pos.of_uint u)).
Proof.
  intros Hu. unfold parseInt.
  replace (strip_sign (skip_whitespace (chars_of_uint u)))
    with (false, chars_of_uint u) by (destruct u; reflexivity).
  cbv beta iota.
  rewrite strip_radix_prefix_digits, (parse_digits_first u 0 Hu),
    parse_digits_zero.
  reflexivity.
Qed.

Lemma parseInt_minus_digits (u : Decimal.uint) :
  u <> Decimal.Nil ->
  parseInt ("-"%char :: chars_of_uint u) = Some (- Z.of_N (Pos.of_uint u))%Z.
Proof.
  intros Hu. unfold parseInt.
  change (strip_sign (skip_whitespace ("-"%char :: chars_of_uint u)))
    with (true, chars_of_uint u).
  cbv beta iota.
  rewrite strip_radix_prefix_digits, (parse_digits_first u 0 Hu),
    parse_digits_zero.
  reflexivity.
Qed.

(** [parseInt(String(z))] is [z]: of the platform for a safe integer, of
    the model's decimal text for every integer. *)
Lemma parseInt_number_to_string (z : Z) :
  parseInt (number_to_string z) = Some z.
Proof.
  destruct z as [|p|p]; simpl number_to_string.
  - reflexivity.
  - rewrite parseInt_digits by apply Unsigned.to_uint_nonnil.
    rewrite Unsigned.of_to. reflexivity.
  - rewrite parseInt_minus_digits by apply Unsigned.to_uint_nonnil.
    rewrite Unsigned.of_to. reflexivity.
Qed.

Lemma number_to_string_truthy (z : Z) : truthy (number_to_string z) = true.
Proof.
  destruct z as [|p|p]; try reflexivity.
  apply chars_of_uint_truthy, Unsigned.to_uint_nonnil.
Qed.

Lemma number_to_string_plain (z : Z) : plain (number_to_string z) = true.
Proof.
  assert (H : forall u, plain (chars_of_uint u) = true).
  { intros u. generalize (chars_of_uint_digits u). apply forallb_implies.
    intros c Hc. apply is_word_plain, is_digit_word, Hc. }
  destruct z as [|p|p]; simpl number_to_string.
  - reflexivity.
  - apply H.
  - change (plain ("-"%char :: ?s)) with (plain s). apply H.
Qed.

(** ** Encodings *)

Lemma nth_forallb (P : ascii -> bool) (l : str) (d : ascii) (n : nat) :
  forallb P l = true -> P d = true -> P (nth n l d) = true.
Proof.
  revert n. induction l as [|c l IH]; intros [|n] Hl Hd; simpl; auto;
    simpl in Hl; apply andb_true_iff in Hl as [Hc Hl]; auto.
Qed.

Lemma hex_char_lower_hex (i : N) : is_lower_hex (hex_char i) = true.
Proof. apply nth_forallb; reflexivity. Qed.

Lemma is_lower_hex_word (c : ascii) : is_lower_hex c = true -> is_word c = true.
Proof. ascii_cases c. Qed.

Lemma hex_encode_lower_hex (bs : list Byte.byte) :
  forallb is_lower_hex (hex_encode bs) = true.
Proof.
  induction bs as [|b bs IH]; simpl; [reflexivity|].
  rewrite !hex_char_lower_hex. exact IH.
Qed.

Lemma hex_encode_length (bs : list Byte.byte) :
  length (hex_encode bs) = (2 * length bs)%nat.
Proof. induction bs as [|b bs IH]; simpl; [reflexivity | rewrite IH; lia]. Qed.

(** The hexadecimal text of a digest that is not empty has the shape the
    regular expression removes. *)
Lemma hex_encode_word_digest (bs : list Byte.byte) :
  bs <> [] -> word_digest (hex_encode bs) = true.
Proof.
  intros Hbs. unfold word_digest. apply andb_true_iff. split.
  - rewrite hex_encode_length. apply Nat.leb_le.
    destruct bs; [congruence | simpl; lia].
  - generalize (hex_encode_lower_hex bs).
    apply forallb_implies, is_lower_hex_word.
Qed.

Lemma base64url_char_alphabet (i : N) : is_base64url (base64url_char i) = true.
Proof. apply nth_forallb; reflexivity. Qed.

Lemma base64url_alphabet_bounded (n : nat) (bs : list Byte.byte) :
  (length bs <= n)%nat -> forallb is_base64url (base64url bs) = true.
Proof.
  revert bs. induction n as [|n IH]; intros bs Hn.
  - destruct bs; [reflexivity | simpl in Hn; lia].
  - destruct bs as [|b0 [|b1 [|b2 rest]]]; [reflexivity | | |];
      cbn [base64url forallb]; rewrite !base64url_char_alphabet;
      try reflexivity.
    apply IH. simpl in Hn. lia.
Qed.

Lemma base64url_alphabet_only (bs : list Byte.byte) :
  forallb is_base64url (base64url bs) = true.
Proof. apply (base64url_alphabet_bounded (length bs)). lia. Qed.

Lemma is_base64url_plain (c : ascii) : is_base64url c = true -> is_plain c = true.
Proof. ascii_cases c. Qed.

Lemma base64url_plain (bs : list Byte.byte) : plain (base64url bs) = true.
Proof.
  generalize (base64url_alphabet_only bs).
  apply forallb_implies, is_base64url_plain.
Qed.

Lemma word_digest_plain (s : str) : word_digest s = true -> plain s = true.
Proof.
  unfold word_digest. intros H. apply andb_true_iff in H as [_ H].
  revert H. apply forallb_implies, is_word_plain.
Qed.

Lemma word_digest_truthy (s : str) : word_digest s = true -> truthy s = true.
Proof.
  unfold word_digest. destruct s; [discriminate | reflexivity].
Qed.

(** ** Removing the signature with the regular expression *)

#[local] Arguments Ascii.eqb : simpl never.

Lemma strip_prefix_starts_with (p s : str) :
  starts_with p s = false -> strip_prefix p s = None.
Proof.
  revert s. induction p as [|a p IH]; intros [|b s]; simpl; try discriminate.
  - reflexivity.
  - destruct (Ascii.eqb a b); simpl; [apply IH | reflexivity].
Qed.

Lemma match_sig_no_marker (s : str) :
  starts_with "&sig=" s = false -> match_sig s = None.
Proof.
  intros H. unfold match_sig. rewrite (strip_prefix_starts_with _ _ H).
  reflexivity.
Qed.

Lemma replace_from_cons (c : ascii) (t : str) :
  match_sig (c :: t) = None -> replace_from 0 (c :: t) = c :: replace_from 0 t.
Proof. intros H. change (replace_from 0 (c :: t))
  with (match match_sig (c :: t) with
        | Some (S k) => replace_from k t
        | _ => c :: replace_from 0 t
        end).
  rewrite H. reflexivity.
Qed.

(** Text in which no match starts is kept. *)
Lemma replace_from_keep (a tail : str) :
  (forall a1 c a2, a = a1 ++ c :: a2 ->
     starts_with "&sig=" (c :: a2 ++ tail) = false) ->
  replace_from 0 (a ++ tail) = a ++ replace_from 0 tail.
Proof.
  induction a as [|x a IH]; intros H; [reflexivity|].
  cbn [app].
  rewrite replace_from_cons
    by (apply match_sig_no_marker, (H [] x a eq_refl)).
  rewrite IH; [reflexivity|].
  intros a1 c a2 E. apply (H (x :: a1) c a2). rewrite E. reflexivity.
Qed.

Lemma starts_with_amp (c : ascii) (s : str) :
  Ascii.eqb c "&" = false -> starts_with "&sig=" (c :: s) = false.
Proof. intros H. simpl. rewrite Ascii.eqb_sym, H. reflexivity. Qed.

Lemma lacks_split (c : ascii) (a1 a2 : str) (x : ascii) :
  lacks c (a1 ++ x :: a2) = true -> Ascii.eqb x c = false.
Proof.
  rewrite lacks_app. intros H. apply andb_true_iff in H as [_ H].
  simpl in H. apply andb_true_iff in H as [H _].
  apply negb_true_iff in H. exact H.
Qed.

(** Text without [&] is kept. *)
Lemma replace_from_keep_lacks (a tail : str) :
  lacks "&" a = true -> replace_from 0 (a ++ tail) = a ++ replace_from 0 tail.
Proof.
  intros Ha. apply replace_from_keep. intros a1 c a2 ->.
  apply starts_with_amp. exact (lacks_split _ _ _ _ Ha).
Qed.

(** An attribute [&name=value] whose name does not start with [s] is kept. *)
Lemma replace_from_attribute (n v tail : str) :
  truthy n = true -> starts_with "s" n = false ->
  lacks "&" n = true -> lacks "&" v = true ->
  replace_from 0 (("&"%char :: n) ++ v ++ tail)
  = ("&"%char :: n) ++ v ++ replace_from 0 tail.
Proof.
  intros Ht Hs Hn Hv. destruct n as [|c n]; [discriminate|].
  simpl in Hs. rewrite andb_true_r in Hs.
  cbn [app]. rewrite replace_from_cons.
  - f_equal. change (c :: n ++ v ++ tail) with ((c :: n) ++ v ++ tail).
    rewrite !replace_from_keep_lacks by assumption. reflexivity.
  - unfold match_sig. cbn [strip_prefix].
    rewrite Ascii.eqb_refl, Hs. reflexivity.
Qed.

(** A match that starts in [t] and runs into a tail that begins with [?]
    or [&] already has its marker in [t]. *)
Lemma starts_with_marker_straddle (t : str) (h : ascii) (tail : str) :
  h = "?"%char \/ h = "&"%char -> t <> [] ->
  starts_with "&sig=" (t ++ h :: tail) = true -> starts_with "&sig=" t = true.
Proof.
  intros Hh Ht.
  destruct t as [|c1 [|c2 [|c3 [|c4 [|c5 t]]]]]; [congruence | | | | |];
    cbn [app starts_with]; intros H; try exact H;
    destruct Hh; subst h;
    repeat (apply andb_true_iff in H; destruct H as [? H]);
    discriminate.
Qed.

Lemma indexOf_from_none (s p : str) (i : Z) (a1 a2 : str) (c : ascii) :
  (0 <= i)%Z -> indexOf_from s p i = (-1)%Z -> s = a1 ++ c :: a2 ->
  starts_with p (c :: a2) = false.
Proof.
  revert i a1. induction s as [|x s IH]; intros i a1 Hi H E.
  - destruct a1; discriminate.
  - simpl in H. destruct (starts_with p (x :: s)) eqn:Hs; [lia|].
    destruct a1 as [|y a1]; simpl in E; injection E as -> ->.
    + exact Hs.
    + apply (IH (i + 1)%Z a1); [lia | exact H | reflexivity].
Qed.

(** A URL without [&sig=] in front of the attributes is kept. *)
Lemma replace_from_keep_url (url : str) (h : ascii) (tail : str) :
  Z.eqb (indexOf url "&sig=") (-1) = true ->
  h = "?"%char \/ h = "&"%char ->
  replace_from 0 (url ++ [h] ++ tail) = url ++ replace_from 0 ([h] ++ tail).
Proof.
  intros Hu Hh. apply Z.eqb_eq in Hu. apply replace_from_keep.
  intros a1 c a2 E. change ([h] ++ tail) with (h :: tail).
  destruct (starts_with "&sig=" (c :: a2 ++ h :: tail)) eqn:Hs; [|reflexivity].
  apply (starts_with_marker_straddle (c :: a2) h tail Hh) in Hs; [|discriminate].
  rewrite (indexOf_from_none url "&sig=" 0 a1 a2 c (Z.le_refl 0) Hu E) in Hs.
  discriminate.
Qed.

Lemma replace_from_drop (a b : str) :
  replace_from (length a) (a ++ b) = replace_from 0 b.
Proof. induction a as [|x a IH]; [reflexivity | exact IH]. Qed.

Lemma word_run_all (s : str) : forallb is_word s = true -> word_run s = length s.
Proof.
  induction s as [|c s IH]; simpl; [reflexivity|].
  intros H. apply andb_true_iff in H as [Hc Hs]. rewrite Hc, (IH Hs).
  reflexivity.
Qed.

(** The signature at the end of the text is removed whole. *)
Lemma replace_from_signature (sg : str) :
  word_digest sg = true -> replace_from 0 ("&sig=" ++ sg) = [].
Proof.
  unfold word_digest. intros H. apply andb_true_iff in H as [Hlen Hw].
  destruct sg as [|c [|c' w]]; [discriminate.. |].
  simpl in Hw. apply andb_true_iff in Hw as [Hc Hw].
  assert (Hamp : Ascii.eqb c "&" = false).
  { apply is_word_plain in Hc. apply negb_true_iff.
    apply (is_plain_lacks c "&"); [simpl; tauto | exact Hc]. }
  assert (Hm : match_sig ("&sig=" ++ c :: c' :: w)
               = Some (S (length ("sig="%str ++ c :: c' :: w)))).
  { unfold match_sig. cbn [app strip_prefix].
    rewrite !Ascii.eqb_refl, Hamp, (word_run_all (c' :: w) Hw).
    reflexivity. }
  change (replace_from 0 ("&sig=" ++ c :: c' :: w))
    with (match match_sig ("&sig=" ++ c :: c' :: w) with
          | Some (S k) => replace_from k ("sig="%str ++ c :: c' :: w)
          | _ => "&"%char :: replace_from 0 ("sig="%str ++ c :: c' :: w)
          end).
  rewrite Hm.
  rewrite <- (app_nil_r ("sig="%str ++ c :: c' :: w)) at 2.
  apply (replace_from_drop ("sig="%str ++ c :: c' :: w) []).
Qed.

(** ** The query codec: parsing what was serialized *)

Lemma before_app (c : ascii) (n v : str) :
  lacks c n = true -> before c (n ++ c :: v) = n.
Proof.
  induction n as [|x n IH]; simpl.
  - rewrite Ascii.eqb_refl. reflexivity.
  - intros H. apply andb_true_iff in H as [Hx Hn].
    apply negb_true_iff in Hx. rewrite Hx, (IH Hn). reflexivity.
Qed.

Lemma plain_pair_parts (p : str * str) :
  plain_pair p = true ->
  truthy (fst p) = true /\ lacks "=" (fst p) = true
  /\ plain (fst p) = true /\ plain (snd p) = true.
Proof.
  unfold plain_pair. intros H.
  apply andb_true_iff in H as [H Hv]. apply andb_true_iff in H as [H Hp].
  apply andb_true_iff in H as [Ht He]. auto.
Qed.

Lemma parse_pair_text (p : str * str) :
  plain_pair p = true -> parse_pair (fst p ++ "=" ++ snd p) = p.
Proof.
  intros H. destruct (plain_pair_parts p H) as (_ & He & Hn & Hv).
  destruct p as [n v]. cbn [fst snd] in *. unfold parse_pair.
  change (n ++ "=" ++ v) with (n ++ "="%char :: v).
  rewrite (before_app _ n v He), (after_app_None _ n v (after_lacks _ n He)).
  cbn [or_empty]. rewrite (decode_plain n Hn), (decode_plain v Hv).
  reflexivity.
Qed.

Lemma pair_text_lacks_amp (p : str * str) :
  plain_pair p = true -> lacks "&" (fst p ++ "=" ++ snd p) = true.
Proof.
  intros H. destruct (plain_pair_parts p H) as (_ & _ & Hn & Hv).
  rewrite !lacks_app.
  rewrite (plain_lacks "&" _ (or_introl eq_refl) Hn).
  rewrite (plain_lacks "&" _ (or_introl eq_refl) Hv). reflexivity.
Qed.

Lemma pair_text_truthy (p : str * str) :
  plain_pair p = true -> truthy (fst p ++ "=" ++ snd p) = true.
Proof.
  intros H. destruct (plain_pair_parts p H) as (Ht & _).
  destruct (fst p); [discriminate | reflexivity].
Qed.

Lemma serialize_cons (p q : str * str) (l : list (str * str)) :
  serialize (p :: q :: l)
  = (fst p ++ "=" ++ snd p) ++ "&"%char :: serialize (q :: l).
Proof. reflexivity. Qed.

(** Parsing is the inverse of serializing on plain pairs. *)
Lemma urlencoded_parse_serialize (l : list (str * str)) :
  forallb plain_pair l = true -> urlencoded_parse (serialize l) = l.
Proof.
  induction l as [|p [|q l] IH]; intros H.
  - reflexivity.
  - simpl in H. rewrite andb_true_r in H.
    change (serialize [p]) with (fst p ++ "=" ++ snd p).
    rewrite urlencoded_parse_last
      by (apply pair_text_lacks_amp || apply pair_text_truthy; exact H).
    rewrite (parse_pair_text p H). reflexivity.
  - cbn [forallb] in H. apply andb_true_iff in H as [Hp Hl].
    rewrite serialize_cons.
    rewrite urlencoded_parse_first
      by (apply pair_text_lacks_amp || apply pair_text_truthy; exact Hp).
    rewrite (parse_pair_text p Hp), (IH Hl). reflexivity.
Qed.

Lemma serialize_forallb (P : ascii -> bool) (l : list (str * str)) :
  P "&"%char = true -> P "="%char = true ->
  forallb (fun p => forallb P (fst p) && forallb P (snd p)) l = true ->
  forallb P (serialize l) = true.
Proof.
  intros Hamp Heq. induction l as [|p [|q l] IH]; intros H.
  - reflexivity.
  - simpl in H. rewrite andb_true_r in H. apply andb_true_iff in H as [Hn Hv].
    change (serialize [p]) with (fst p ++ "=" ++ snd p).
    rewrite !forallb_app, Hn, Hv. simpl. rewrite Heq. reflexivity.
  - cbn [forallb] in H. apply andb_true_iff in H as [Hp Hl].
    apply andb_true_iff in Hp as [Hn Hv].
    rewrite serialize_cons, !forallb_app, Hn. cbn [forallb].
    rewrite Heq, Hv, Hamp, (IH Hl). reflexivity.
Qed.

Lemma plain_pair_forallb (P : ascii -> bool) (l : list (str * str)) :
  (forall c, is_plain c = true -> P c = true) ->
  forallb plain_pair l = true ->
  forallb (fun p => forallb P (fst p) && forallb P (snd p)) l = true.
Proof.
  intros HP. induction l as [|p l IH]; cbn [forallb]; [reflexivity|].
  intros H. apply andb_true_iff in H as [Hp Hl].
  destruct (plain_pair_parts p Hp) as (_ & _ & Hn & Hv).
  rewrite (forallb_implies _ _ _ HP Hn), (forallb_implies _ _ _ HP Hv).
  exact (IH Hl).
Qed.

(** ** What [sign] writes and [extractUrlData] reads back *)

Lemma separator_cases (url : str) :
  separator url = "?"%char \/ separator url = "&"%char.
Proof. unfold separator. destruct (lacks "?" url); auto. Qed.

Lemma with_attributes_serialize (url : str) (d : SignatureData.t) :
  SignUrl.with_attributes url d
  = url ++ [separator url] ++ serialize (attribute_pairs d).
Proof.
  unfold SignUrl.with_attributes, separator. rewrite indexOf_char.
  unfold serialize, attribute_pairs. cbn [map join fst snd].
  destruct (lacks "?" url); rewrite <- !app_assoc; reflexivity.
Qed.

Lemma serialize_snoc (p q : str * str) (l : list (str * str)) :
  serialize ((p :: l) ++ [q])
  = serialize (p :: l) ++ "&" ++ fst q ++ "=" ++ snd q.
Proof.
  revert p. induction l as [|p' l IH]; intros p; [reflexivity|].
  change ((p :: p' :: l) ++ [q]) with (p :: (p' :: l) ++ [q]).
  change (serialize (p :: (p' :: l) ++ [q]))
    with ((fst p ++ "=" ++ snd p) ++ "&" ++ serialize ((p' :: l) ++ [q])).
  rewrite IH, serialize_cons. rewrite <- !app_assoc. reflexivity.
Qed.

Lemma expires_text_plain (e : option Z) : plain (SignUrl.expires_text e) = true.
Proof.
  unfold SignUrl.expires_text. destruct (truthy_number e); [|reflexivity].
  destruct e; [apply number_to_string_plain | reflexivity].
Qed.

Lemma signable_parts (url : str) :
  signable url = true ->
  lacks "#" url = true
  /\ Z.eqb (indexOf url "&sig=") (-1) = true
  /\ forall name, In name attribute_names ->
       searchParams_get (urlencoded_parse (url_query (url_head url))) name
       = None.
Proof.
  unfold signable. intros H.
  apply andb_true_iff in H as [H Hnames]. apply andb_true_iff in H as [Hh Hsig].
  repeat split; try assumption.
  intros name Hin. rewrite forallb_forall in Hnames.
  specialize (Hnames name Hin). unfold has_parameter in Hnames.
  destruct (searchParams_get _ name); [discriminate | reflexivity].
Qed.

Section Signed.

Variables (url : str) (d : SignatureData.t) (sg : str).
Hypothesis Hurl : signable url = true.
Hypothesis Hd : plain_attributes d = true.
Hypothesis Hsg : word_digest sg = true.

Let body : str := SignUrl.with_attributes url d.
Let signed : str := body ++ "&sig=" ++ sg.
Let pairs : list (str * str) := attribute_pairs d ++ [("sig", sg)].

Lemma signed_pairs : signed = url ++ [separator url] ++ serialize pairs.
Proof.
  unfold signed, body, pairs. rewrite with_attributes_serialize.
  unfold attribute_pairs. rewrite serialize_snoc.
  rewrite <- !app_assoc. reflexivity.
Qed.

Lemma pairs_plain : forallb plain_pair pairs = true.
Proof.
  unfold plain_attributes in Hd.
  apply andb_true_iff in Hd as [H Hr]. apply andb_true_iff in H as [Hi Hm].
  unfold pairs, attribute_pairs, plain_pair. cbn [app forallb fst snd].
  rewrite expires_text_plain, Hi, Hm, Hr, (word_digest_plain sg Hsg).
  reflexivity.
Qed.

Lemma serialize_pairs_forallb (P : ascii -> bool) :
  (forall c, is_plain c = true -> P c = true) ->
  P "&"%char = true -> P "="%char = true ->
  forallb P (serialize pairs) = true.
Proof.
  intros HP Hamp Heq. apply serialize_forallb; try assumption.
  apply plain_pair_forallb; [exact HP | exact pairs_plain].
Qed.

(** The signed URL reaches the URL parser with the head of the URL as the
    parser reads it, and the appended text as it is. *)
Lemma signed_input :
  url_input signed = url_head url ++ [separator url] ++ serialize pairs.
Proof.
  assert (Hend : exists t z, sg = t ++ [z] /\ is_word z = true).
  { unfold word_digest in Hsg. apply andb_true_iff in Hsg as [Hlen Hw].
    destruct (exists_last (l := sg)) as (t & z & E).
    - intros ->. discriminate.
    - exists t, z. split; [exact E|]. rewrite E, forallb_app in Hw.
      apply andb_true_iff in Hw as [_ Hz]. simpl in Hz.
      rewrite andb_true_r in Hz. exact Hz. }
  destruct Hend as (t & z & Esg & Hz).
  assert (Hq : forallb (fun x => negb (is_tab_or_newline x)) (serialize pairs)
               = true)
    by (apply serialize_pairs_forallb; [apply is_plain_not_tab | reflexivity..]).
  assert (E : serialize pairs
              = (serialize (attribute_pairs d) ++ "&sig=" ++ t) ++ [z]).
  { unfold pairs, attribute_pairs. rewrite serialize_snoc. cbn [fst snd].
    rewrite Esg, <- !app_assoc. reflexivity. }
  rewrite signed_pairs. cbn [app]. rewrite E in Hq |- *.
  apply url_input_app.
  - destruct (separator_cases url) as [-> | ->]; reflexivity.
  - apply is_word_not_c0, Hz.
  - cbn [forallb]. rewrite Hq.
    destruct (separator_cases url) as [-> | ->]; reflexivity.
Qed.

Lemma signed_query :
  urlencoded_parse (url_query (url_input signed))
  = urlencoded_parse (url_query (url_head url)) ++ pairs.
Proof.
  destruct (signable_parts url Hurl) as (Hhash & _ & _).
  rewrite <- (lacks_url_head "#" url eq_refl) in Hhash.
  assert (Hq : lacks "#" (serialize pairs) = true).
  { apply serialize_pairs_forallb; try reflexivity.
    intros c Hc. apply (is_plain_lacks c "#"); [simpl; tauto | exact Hc]. }
  rewrite signed_input. unfold separator.
  rewrite <- (lacks_url_head "?" url eq_refl).
  generalize dependent (url_head url). intros head Hhash.
  unfold url_query. rewrite (before_lacks _ head Hhash).
  rewrite before_lacks.
  2:{ rewrite !lacks_app, Hhash, Hq.
      destruct (lacks "?" head); reflexivity. }
  destruct (lacks "?" head) eqn:Hmark.
  - rewrite (after_lacks _ head Hmark).
    change (head ++ ["?"%char] ++ serialize pairs)
      with (head ++ "?"%char :: serialize pairs).
    rewrite (after_app_None _ head _ (after_lacks _ head Hmark)).
    cbn [or_empty]. rewrite urlencoded_parse_serialize by exact pairs_plain.
    reflexivity.
  - destruct (after "?" head) as [q|] eqn:Hafter.
    + rewrite (after_app_Some _ head q _ Hafter). cbn [or_empty].
      change (q ++ ["&"%char] ++ serialize pairs)
        with (q ++ "&"%char :: serialize pairs).
      rewrite urlencoded_parse_app.
      rewrite urlencoded_parse_serialize by exact pairs_plain. reflexivity.
    + rewrite (after_None_lacks _ head Hafter) in Hmark. discriminate.
Qed.

(** The attribute names are looked up among the pairs [sign] wrote. *)
Lemma signed_get (name : str) :
  In name attribute_names ->
  searchParams_get (urlencoded_parse (url_query (url_input signed))) name
  = searchParams_get pairs name.
Proof.
  intros Hin. destruct (signable_parts url Hurl) as (_ & _ & Hfree).
  rewrite signed_query.
  rewrite searchParams_get_app, (Hfree name Hin). reflexivity.
Qed.

(** The regular expression removes the signature and nothing else. *)
Lemma signed_replace : replace_sig signed = body.
Proof.
  destruct (signable_parts url Hurl) as (_ & Hmarker & _).
  unfold plain_attributes in Hd.
  apply andb_true_iff in Hd as [H Hr]. apply andb_true_iff in H as [Hi Hm].
  pose proof (plain_lacks "&" _ (or_introl eq_refl)
                (expires_text_plain (SignatureData.expires d))) as He.
  apply (plain_lacks "&" _ (or_introl eq_refl)) in Hi, Hm, Hr.
  unfold replace_sig, signed, body.
  rewrite with_attributes_serialize.
  unfold serialize, attribute_pairs. cbn [map join fst snd].
  rewrite <- !app_assoc.
  rewrite (replace_from_keep_url url _ _ Hmarker (separator_cases url)).
  do 2 f_equal.
  assert (Hrest : forall tail,
    replace_from 0
      ("&ip=" ++ or_empty (SignatureData.ipAddress d)
       ++ "&method=" ++ or_empty (SignatureData.method d)
       ++ "&r=" ++ SignatureData.r d ++ tail)
    = "&ip=" ++ or_empty (SignatureData.ipAddress d)
       ++ "&method=" ++ or_empty (SignatureData.method d)
       ++ "&r=" ++ SignatureData.r d ++ replace_from 0 tail).
  { intros tail.
    rewrite (replace_from_attribute "ip=") by (reflexivity || assumption).
    rewrite (replace_from_attribute "method=") by (reflexivity || assumption).
    rewrite (replace_from_attribute "r=") by (reflexivity || assumption).
    reflexivity. }
  pose proof (replace_from_attribute "expires=" _
                ("&ip=" ++ or_empty (SignatureData.ipAddress d)
                 ++ "&method=" ++ or_empty (SignatureData.method d)
                 ++ "&r=" ++ SignatureData.r d ++ "&sig=" ++ sg)
                eq_refl eq_refl eq_refl He) as Hamp.
  pose proof (replace_from_keep_lacks ("?expires=" ++ _)
                ("&ip=" ++ or_empty (SignatureData.ipAddress d)
                 ++ "&method=" ++ or_empty (SignatureData.method d)
                 ++ "&r=" ++ SignatureData.r d ++ "&sig=" ++ sg) He) as Hmark.
  rewrite <- app_assoc in Hmark.
  rewrite Hrest, (replace_from_signature sg Hsg) in Hamp, Hmark.
  cbn [app] in Hamp, Hmark |- *.
  destruct (separator_cases url) as [-> | ->];
    [rewrite Hmark | rewrite Hamp]; rewrite !app_nil_r; reflexivity.
Qed.

End Signed.

Lemma expires_text_parse (e : option Z) :
  parseInt (or_default (Some (SignUrl.expires_text e)) "0")
  = Some (if truthy_number e then match e with Some z => z | None => 0%Z end
          else 0%Z).
Proof.
  unfold SignUrl.expires_text, or_default. cbn [or_empty].
  destruct (truthy_number e) eqn:He; [|reflexivity].
  destruct e as [z|]; [|discriminate].
  rewrite number_to_string_truthy. apply parseInt_number_to_string.
Qed.

(** What [extractUrlData] finds in a URL that [sign] extended. *)
Lemma extractUrlData_signed (rt : Runtime) (url : str) (d : SignatureData.t)
    (sg : str) :
  signable url = true -> plain_attributes d = true -> word_digest sg = true ->
  URL_canParse rt (SignUrl.with_attributes url d ++ "&sig=" ++ sg) = true ->
  exists u,
    SignUrl.extractUrlData rt (SignUrl.with_attributes url d ++ "&sig=" ++ sg)
    = Ok u
    /\ SignedURLData.urlWithoutSignature u = SignUrl.with_attributes url d
    /\ SignedURLData.expires u
       = Some (if truthy_number (SignatureData.expires d)
               then match SignatureData.expires d with
                    | Some z => z
                    | None => 0%Z
                    end
               else 0%Z)
    /\ SignedURLData.ipAddress u = or_empty (SignatureData.ipAddress d)
    /\ SignedURLData.method u = or_empty (SignatureData.method d)
    /\ SignedURLData.signature u = sg.
Proof.
  intros Hurl Hd Hsg Hparse.
  unfold SignUrl.extractUrlData, new_URL. rewrite Hparse.
  eexists. split; [reflexivity|].
  cbn [SignedURLData.urlWithoutSignature SignedURLData.expires
       SignedURLData.ipAddress SignedURLData.method SignedURLData.signature
       searchParams].
  rewrite !(signed_get url d sg Hurl Hd Hsg) by (simpl; tauto).
  rewrite (signed_replace url d sg Hurl Hd Hsg).
  repeat split; try reflexivity.
  apply expires_text_parse.
Qed.

(** ** The checks of [verify] *)

Lemma verify_checks (rt : Runtime) (this : SignUrl.t) (now : Z) (url : str)
    (context : VerifyOptions.t) (u : SignedURLData.t) :
  SignUrl.extractUrlData rt url = Ok u ->
  SignUrl.verify rt this now url context
  = (_ <- throw_if (SignUrl.ip_rejected u context) BlackholedSignatureError ;;
     _ <- throw_if (SignUrl.method_rejected u context) BlackholedSignatureError ;;
     _ <- throw_if (SignUrl.expired u now) ExpiredSignatureError ;;
     valid <- SignUrl.isValidURLSignature this
                (SignedURLData.urlWithoutSignature u)
                (SignedURLData.signature u) ;;
     _ <- throw_if (negb valid) MismatchSignatureError ;;
     Ok true).
Proof. intros H. unfold SignUrl.verify. rewrite H. reflexivity. Qed.

(** The three context checks pass, and the digest is the one appended. *)
Lemma verify_accepts (rt : Runtime) (this : SignUrl.t) (now : Z) (url : str)
    (context : VerifyOptions.t) (u : SignedURLData.t) :
  SignUrl.extractUrlData rt url = Ok u ->
  SignUrl.ip_rejected u context = false ->
  SignUrl.method_rejected u context = false ->
  SignUrl.expired u now = false ->
  SignUrl.hash this (SignedURLData.urlWithoutSignature u)
  = Ok (SignedURLData.signature u) ->
  SignUrl.verify rt this now url context = Ok true.
Proof.
  intros Hu Hip Hm He Hh. rewrite (verify_checks rt this now url context u Hu).
  rewrite Hip, Hm, He. unfold SignUrl.isValidURLSignature. rewrite Hh.
  cbn [throw_if bind]. rewrite str_eqb_refl. reflexivity.
Qed.

Lemma ip_accepted (u : SignedURLData.t) (options : SignOptions.t)
    (context : VerifyOptions.t) :
  SignedURLData.ipAddress u = or_empty (SignUrl.resolve_ipAddress options) ->
  ip_matches options context -> SignUrl.ip_rejected u context = false.
Proof.
  unfold SignUrl.ip_rejected, SignUrl.resolve_ipAddress, ip_matches.
  intros -> H. destruct (SignOptions.ipAddress options) as [[|c ip]|];
    try reflexivity.
  rewrite H. cbn [truthy or_empty negb orb andb].
  rewrite str_eqb_refl. reflexivity.
Qed.

Lemma method_found (m c : str) :
  Z.eqb (indexOf m (toUpperCase c)) (-1) = false ->
  forall u context,
    SignedURLData.method u = m -> VerifyOptions.method context = Some c ->
    SignUrl.method_rejected u context = false.
Proof.
  intros Hfound u context Hu Hc. unfold SignUrl.method_rejected.
  rewrite Hu, Hc. cbn [or_empty]. unfold bool_or_number.
  destruct (truthy c); cbn [negb strict_eq_number].
  - rewrite Hfound. apply andb_false_r.
  - apply andb_false_r.
Qed.

Lemma resolve_method_found (options : SignOptions.t) (c name : str) (m : MethodOption) :
  SignOptions.method options = Some m -> In name (method_names m) ->
  toUpperCase c = toUpperCase name ->
  Z.eqb (indexOf (or_empty (SignUrl.resolve_method options)) (toUpperCase c)) (-1)
  = false.
Proof.
  intros Hm Hin Hc. unfold SignUrl.resolve_method. rewrite Hm, Hc.
  destruct m as [s | ms]; cbn [method_names] in Hin.
  - destruct Hin as [<- | []]. destruct (truthy s) eqn:Hs; cbn [or_empty].
    + rewrite <- (app_nil_r (toUpperCase s)) at 1.
      apply (indexOf_found [] (toUpperCase s) []).
    + destruct s; [reflexivity | discriminate].
  - cbn [or_empty]. rewrite toUpperCase_join.
    destruct (join_contains (toUpperCase ",") (map toUpperCase ms)
                (toUpperCase name) (in_map toUpperCase ms name Hin))
      as (a & b & ->).
    apply indexOf_found.
Qed.

Lemma method_accepted (u : SignedURLData.t) (options : SignOptions.t)
    (context : VerifyOptions.t) :
  SignedURLData.method u = or_empty (SignUrl.resolve_method options) ->
  method_matches options context -> SignUrl.method_rejected u context = false.
Proof.
  unfold method_matches. intros Hu H.
  destruct (SignOptions.method options) as [m|] eqn:Hm.
  - destruct H as (c & name & Hc & Hin & Hup).
    apply (method_found _ c (resolve_method_found options c name m Hm Hin Hup)
             u context Hu Hc).
  - unfold SignUrl.method_rejected. rewrite Hu. unfold SignUrl.resolve_method.
    rewrite Hm. reflexivity.
Qed.

Lemma not_expired (u : SignedURLData.t) (e : option Z) (now : Z) :
  SignedURLData.expires u
  = Some (if truthy_number e then match e with Some z => z | None => 0%Z end
          else 0%Z) ->
  not_after now e -> SignUrl.expired u now = false.
Proof.
  unfold SignUrl.expired, not_after. intros -> H.
  destruct (truthy_number e) eqn:He; [|reflexivity].
  destruct e as [z|]; [|discriminate].
  cbn [truthy_number] in *. rewrite He. apply Z.ltb_ge. exact H.
Qed.

Lemma plain_names (names : list str) :
  forallb (fun name => plain name && cased name) names = true ->
  forallb plain names = true.
Proof.
  induction names as [|n names IH]; cbn [forallb]; [reflexivity|].
  intros H. apply andb_true_iff in H as [Hn Hrest].
  apply andb_true_iff in Hn as [Hn _]. rewrite Hn, (IH Hrest). reflexivity.
Qed.

Lemma plain_options_attributes (this : SignUrl.t) (now : Z)
    (random : list Byte.byte) (options : SignOptions.t) :
  plain_options options = true ->
  plain_attributes
    {| SignatureData.r := base64url random;
       SignatureData.expires := SignUrl.resolve_expires this now options;
       SignatureData.method := SignUrl.resolve_method options;
       SignatureData.ipAddress := SignUrl.resolve_ipAddress options |} = true.
Proof.
  unfold plain_options, plain_attributes. intros H.
  apply andb_true_iff in H as [Hip Hm].
  cbn [SignatureData.r SignatureData.method SignatureData.ipAddress].
  rewrite base64url_plain, andb_true_r. apply andb_true_iff. split.
  - unfold SignUrl.resolve_ipAddress.
    destruct (SignOptions.ipAddress options) as [ip|]; [|reflexivity].
    destruct (truthy ip); [exact Hip | reflexivity].
  - unfold SignUrl.resolve_method.
    destruct (SignOptions.method options) as [[s|ms]|]; [| |reflexivity];
      cbn [method_names] in Hm; apply plain_names in Hm.
    + simpl in Hm. rewrite andb_true_r in Hm.
      destruct (truthy s); [|reflexivity]. apply toUpperCase_plain, Hm.
    + apply toUpperCase_plain, plain_join_comma, Hm.
Qed.

(** ** The digest of a named algorithm *)

Lemma generateSignature_digest (rt : Runtime) (k data algorithm : str) :
  truthy k = true -> In algorithm (getHashes rt) ->
  SignUrl.generateSignature rt (Some k) data algorithm
  = Ok (hex_encode (hmac rt algorithm k (data ++ k))).
Proof.
  intros Hk Halg. unfold SignUrl.generateSignature, SignUrl.isProvidedKey,
    SignUrl.isValidAlgorithm.
  cbn [or_empty]. rewrite Hk.
  rewrite (proj2 (includes_In (getHashes rt) algorithm) Halg).
  reflexivity.
Qed.

(** ** Signing, then verifying *)

(** For any engine whose digest of the extended URL has the shape the
    regular expression expects. *)
Lemma verify_sign (rt : Runtime) (this : SignUrl.t) (now_sign now_verify : Z)
    (random : list Byte.byte) (url : str) (options : SignOptions.t)
    (context : VerifyOptions.t) (sg : str) :
  let d :=
    {| SignatureData.r := base64url random;
       SignatureData.expires := SignUrl.resolve_expires this now_sign options;
       SignatureData.method := SignUrl.resolve_method options;
       SignatureData.ipAddress := SignUrl.resolve_ipAddress options |} in
  signable url = true -> plain_options options = true ->
  SignUrl.hash this (SignUrl.with_attributes url d) = Ok sg ->
  word_digest sg = true ->
  ip_matches options context -> method_matches options context ->
  not_after now_verify (SignUrl.resolve_expires this now_sign options) ->
  SignUrl.sign this now_sign random url options
  = Ok (SignUrl.with_attributes url d ++ "&sig=" ++ sg)
  /\ (URL_canParse rt (SignUrl.with_attributes url d ++ "&sig=" ++ sg) = true ->
      SignUrl.verify rt this now_verify
        (SignUrl.with_attributes url d ++ "&sig=" ++ sg) context = Ok true).
Proof.
  intros d Hurl Hopts Hhash Hsg Hip Hm He. split.
  - unfold SignUrl.sign. fold d. rewrite Hhash. reflexivity.
  - intros Hparse.
    destruct (extractUrlData_signed rt url d sg Hurl
                (plain_options_attributes this now_sign random options Hopts)
                Hsg Hparse)
      as (u & Hu & Hbody & Hexp & Huip & Hum & Hus).
    apply (verify_accepts rt this now_verify _ context u Hu).
    + apply (ip_accepted u options context Huip Hip).
    + apply (method_accepted u options context Hum Hm).
    + apply (not_expired u _ now_verify Hexp He).
    + rewrite Hbody, Hus. exact Hhash.
Qed.

(** ** The example runtime *)

Lemma blocks_length (n : nat) (h bs : list N) :
  length h = 8%nat -> length (Sha256.blocks n h bs) = 8%nat.
Proof.
  revert h bs. induction n as [|n IH]; intros h bs Hh; [exact Hh|].
  cbn [Sha256.blocks]. apply IH. unfold Sha256.compress.
  rewrite length_map, length_combine, Hh. reflexivity.
Qed.

Lemma flat_map_length_const {A B : Type} (f : A -> list B) (k : nat) (l : list A) :
  (forall x, length (f x) = k) -> length (flat_map f l) = (length l * k)%nat.
Proof.
  intros Hf. induction l as [|x l IH]; [reflexivity|].
  cbn [flat_map length]. rewrite length_app, Hf, IH. lia.
Qed.

Lemma sha256_length (msg : list N) : length (Sha256.sha256 msg) = 32%nat.
Proof.
  unfold Sha256.sha256.
  rewrite (flat_map_length_const (Sha256.big_endian 4) 4).
  - rewrite blocks_length; reflexivity.
  - intros x. unfold Sha256.big_endian. rewrite length_map. reflexivity.
Qed.

Lemma example_hmac_not_empty (algorithm key data : str) :
  hmac example_runtime algorithm key data <> [].
Proof.
  cbn [hmac example_runtime]. unfold Sha256.to_bytes, Sha256.hmac_sha256.
  intros H. apply (f_equal (@length _)) in H.
  rewrite length_map, sha256_length in H. discriminate.
Qed.

(** ** The model on known values *)

(** The test vector of FIPS 180-4 for the message [abc]. *)
Example sha256_abc :
  hex_encode (Sha256.to_bytes (Sha256.sha256 (Sha256.utf8 "abc")))
  = "ba7816bf8f01cfea414140de5dae2223b00361a396177a9cb410ff61f20015ad".
Proof. vm_compute. reflexivity. Qed.

Example base64url_example_random :
  base64url example_random = "KJ2Wxrgp9LCdmZxMIkv9UQ".
Proof. vm_compute. reflexivity. Qed.

Example parseInt_values :
  parseInt "1692277975099" = Some 1692277975099%Z
  /\ parseInt "  -42abc" = Some (-42)%Z
  /\ parseInt "0x1f" = Some 31%Z
  /\ parseInt "0" = Some 0%Z
  /\ parseInt "abc" = None.
Proof. repeat split; vm_compute; reflexivity. Qed.

(** The URL of the README: its parts, and [verify] before and after its
    expiry. *)
Example readme_url_data :
  SignUrl.extractUrlData example_runtime readme_url
  = Ok {| SignedURLData.urlWithoutSignature :=
            "http://localhost:8080/example?expires=1692277975099&ip=&method=GET&r=KJ2Wxrgp9LCdmZxMIkv9UQ";
          SignedURLData.expires := Some 1692277975099%Z;
          SignedURLData.ipAddress := [];
          SignedURLData.method := "GET";
          SignedURLData.r := "KJ2Wxrgp9LCdmZxMIkv9UQ";
          SignedURLData.signature :=
            "790c6a7fcccfdd9bb80c32bd3cd64c7965bbe8ed3fa377eacc7c1dea2517f6ce" |}.
Proof. vm_compute. reflexivity. Qed.

Example readme_url_verifies :
  SignUrl.verify example_runtime readme_signer 1692277975099 readme_url
    (context_of (Some "GET") None) = Ok true
  /\ SignUrl.verify example_runtime readme_signer 1692277975100 readme_url
       (context_of (Some "GET") None) = Throw ExpiredSignatureError.
Proof. split; vm_compute; reflexivity. Qed.

(** One changed character of the signed text is a mismatch. *)
Example readme_url_tampered :
  SignUrl.verify example_runtime readme_signer 1692277975099
    "http://localhost:8080/exemple?expires=1692277975099&ip=&method=GET&r=KJ2Wxrgp9LCdmZxMIkv9UQ&sig=790c6a7fcccfdd9bb80c32bd3cd64c7965bbe8ed3fa377eacc7c1dea2517f6ce"
    (context_of (Some "GET") None) = Throw MismatchSignatureError.
Proof. vm_compute. reflexivity. Qed.

(** A URL bound to [1.2.3.4]: verified from that address, from another one
    and from none. *)
Example bound_url_contexts :
  SignUrl.verify example_runtime scenario_signer 1692277976000 bound_url
    (context_of (Some "GET") (Some "1.2.3.4")) = Ok true
  /\ SignUrl.verify example_runtime scenario_signer 1692277976000 bound_url
       (context_of (Some "GET") (Some "5.6.7.8"))
     = Throw BlackholedSignatureError
  /\ SignUrl.verify example_runtime scenario_signer 1692277976000 bound_url
       (context_of (Some "GET") None) = Throw BlackholedSignatureError.
Proof. repeat split; vm_compute; reflexivity. Qed.

(** A string that is no absolute URL makes [verify] throw a [TypeError]. *)
Example relative_url_rejected :
  SignUrl.verify example_runtime scenario_signer 1692277976000
    "/example?expires=&ip=&method=&r=KJ2Wxrgp9LCdmZxMIkv9UQ&sig=00"
    VerifyOptions.empty = Throw TypeError.
Proof. vm_compute. reflexivity. Qed.

(** The URL with a space in front and a tab inside, signed for an address
    and methods with letters above ASCII: the digest is the HMAC of the
    UTF-8 text, and [verify] accepts the URL from the address, for the
    second method in upper case. *)
Example spaced_url_roundtrip :
  let signed : str :=
    spaced_url ++ "&expires=1700000000000&ip=1.2.3.4 " ++ ["233"%char]
      ++ "&method=GET,P" ++ ["201"%char] ++ "&r=KJ2Wxrgp9LCdmZxMIkv9UQ"
      ++ "&sig=bf73495dea5982447c793df8921ced6e082c0fa826bbb7bc6e59e1eda3ebb392" in
  signable spaced_url = true
  /\ plain_options latin_options = true
  /\ SignUrl.sign scenario_signer 1692277975000 example_random spaced_url
       latin_options = Ok signed
  /\ SignUrl.verify example_runtime scenario_signer 1692277976000 signed
       (context_of (Some ["P"; "201"]%char)
          (Some ("1.2.3.4 " ++ ["233"%char])))
     = Ok true.
Proof. repeat split; vm_compute; reflexivity. Qed.

(** The expiry of an engine whose ttl leads out of the range of a [Date]
    is [NaN]: [sign] writes none. *)
Example resolve_expires_out_of_range :
  SignUrl.resolve_expires
    (SignUrl.new example_runtime
       {| SignatureOptions.key := Some "abc";
          SignatureOptions.ttl := Some 1000000000000%Z;
          SignatureOptions.hash := None |})
    1692277975000 SignOptions.empty
  = None.
Proof. reflexivity. Qed.

(* ================================================================= *)
(** * Main results *)

(** ** Round trip *)

(** C1, amended. Signing and then verifying succeeds under these
    conditions: the engine uses a named algorithm that the runtime supports,
    with a non-empty key, and the runtime's HMAC of that algorithm is not
    empty; the URL is signable (no fragment, no [&sig=] in it, and, as the
    URL parser reads it, no query parameter named expires, ip, method or
    sig); the address and the method names are plain text (without [&],
    [#], [%], [+], tab and newline; the method names without the three
    letters listed at [leaves_alphabet]); the resolved expiry, if there is
    one, is a safe integer; the context passes the bound IP (if any) and one
    of the signed methods in any letter case (if any); the clock has not
    passed the resolved expiry. Then [sign] returns a URL, and if the URL
    constructor accepts that URL, [verify] returns true. *)
Theorem verify_sign_roundtrip :
  forall (rt : Runtime) (key algorithm : str) (ttl : option Z)
         (now_sign now_verify : Z) (random : list Byte.byte) (url : str)
         (options : SignOptions.t) (context : VerifyOptions.t),
    let this :=
      SignUrl.new rt {| SignatureOptions.key := Some key;
                        SignatureOptions.ttl := ttl;
                        SignatureOptions.hash := Some (HashName algorithm) |} in
    truthy key = true ->
    In algorithm (getHashes rt) ->
    (forall data, hmac rt algorithm key data <> []) ->
    signable url = true ->
    plain_options options = true ->
    safe_expiry (SignUrl.resolve_expires this now_sign options) = true ->
    ip_matches options context ->
    method_matches options context ->
    not_after now_verify (SignUrl.resolve_expires this now_sign options) ->
    exists signed,
      SignUrl.sign this now_sign random url options = Ok signed
      /\ (URL_canParse rt signed = true ->
          SignUrl.verify rt this now_verify signed context = Ok true).
Proof.
  intros rt key algorithm ttl now_sign now_verify random url options context
    this Hkey Halg Hmac Hurl Hopts Hsafe Hip Hm He.
  eexists.
  eapply (verify_sign rt this now_sign now_verify random url options context);
    try eassumption.
  - apply (generateSignature_digest rt key _ algorithm Hkey Halg).
  - apply hex_encode_word_digest, Hmac.
Qed.

(** The scenario of the specification, verified one second after it was
    signed with the method in lower case. *)
Lemma verify_sign_roundtrip_witness :
  signable "http://x/y" = true
  /\ plain_options scenario_options = true
  /\ exists signed,
       SignUrl.sign scenario_signer 1692277975000 example_random
         "http://x/y" scenario_options = Ok signed
       /\ (URL_canParse example_runtime signed = true ->
           SignUrl.verify example_runtime scenario_signer 1692277976000
             signed (context_of (Some "get") None) = Ok true).
Proof.
  split; [reflexivity|]. split; [reflexivity|].
  apply (verify_sign_roundtrip example_runtime "abc" "sha256" (Some 0%Z)
           1692277975000 1692277976000 example_random "http://x/y"
           scenario_options (context_of (Some "get") None)).
  - reflexivity.
  - simpl. tauto.
  - apply example_hmac_not_empty.
  - reflexivity.
  - reflexivity.
  - reflexivity.
  - exact I.
  - exists "get", "GET". repeat split. simpl. tauto.
  - simpl. lia.
Defined.

(** C1 as stated fails: a URL with a fragment. [sign] appends the
    attributes after the fragment, so the query that [verify] parses has
    none of them; the context matches and the clock is before the expiry,
    and [verify] throws [MismatchSignatureError]. *)
Lemma verify_sign_fragment_mismatch :
  ip_matches scenario_options (context_of (Some "GET") None)
  /\ method_matches scenario_options (context_of (Some "GET") None)
  /\ not_after 1692277976000
       (SignUrl.resolve_expires scenario_signer 1692277975000 scenario_options)
  /\ exists signed,
       SignUrl.sign scenario_signer 1692277975000 example_random
         "http://x/y#top" scenario_options = Ok signed
       /\ URL_canParse example_runtime signed = true
       /\ SignUrl.verify example_runtime scenario_signer 1692277976000 signed
            (context_of (Some "GET") None) = Throw MismatchSignatureError.
Proof.
  split; [exact I|]. split.
  { exists "GET", "GET". repeat split. simpl. tauto. }
  split; [simpl; lia|].
  eexists. split; [vm_compute; reflexivity|].
  split; vm_compute; reflexivity.
Qed.

(** ** Reconstructing the signed text *)

(** C2, evaluated where it fails. For the URL [http://x/y?a=1&sig=abc] the
    signer hashes the text [hashed] below and appends its digest; the
    regular expression of [extractUrlData] then removes both [&sig=abc] and
    the appended signature, so [urlWithoutSignature] differs from the
    hashed text, the signature read back is [abc], and [verify] rejects the
    URL the engine has just signed. The match is not delimited on the right
    either: in [&sig=ab-cd] it ends before the [-]. *)
Theorem extractUrlData_removes_every_sig :
  let hashed : str :=
    "http://x/y?a=1&sig=abc&expires=1700000000000&ip=&method=GET&r=KJ2Wxrgp9LCdmZxMIkv9UQ" in
  exists digest u,
    SignUrl.hash scenario_signer hashed = Ok digest
    /\ SignUrl.sign scenario_signer 1692277975000 example_random
         "http://x/y?a=1&sig=abc" scenario_options
       = Ok (hashed ++ "&sig=" ++ digest)
    /\ SignUrl.extractUrlData example_runtime (hashed ++ "&sig=" ++ digest) = Ok u
    /\ SignedURLData.urlWithoutSignature u
       = "http://x/y?a=1&expires=1700000000000&ip=&method=GET&r=KJ2Wxrgp9LCdmZxMIkv9UQ"
    /\ str_eqb (SignedURLData.urlWithoutSignature u) hashed = false
    /\ SignedURLData.signature u = "abc"
    /\ SignUrl.verify example_runtime scenario_signer 1692277976000
         (hashed ++ "&sig=" ++ digest) (context_of (Some "GET") None)
       = Throw MismatchSignatureError
    /\ replace_sig "http://x/y?a=1&sig=ab-cd" = "http://x/y?a=1-cd".
Proof.
  intros hashed. eexists. eexists.
  split; [vm_compute; reflexivity|].
  split; [vm_compute; reflexivity|].
  split; [vm_compute; reflexivity|].
  repeat split; vm_compute; reflexivity.
Qed.

(** ** The order of the checks *)

(** C3. [verify] runs its checks in the order IP binding, allowed method,
    expiry, digest, and the first that fails decides the error. In
    particular a URL whose bound IP the context does not pass is rejected
    with [BlackholedSignatureError] even when it has expired. *)
Theorem verify_check_order :
  forall (rt : Runtime) (this : SignUrl.t) (now : Z) (url : str)
         (context : VerifyOptions.t) (u : SignedURLData.t),
    SignUrl.extractUrlData rt url = Ok u ->
    (SignUrl.ip_rejected u context = true ->
     SignUrl.verify rt this now url context = Throw BlackholedSignatureError)
    /\ (SignUrl.ip_rejected u context = false ->
        SignUrl.method_rejected u context = true ->
        SignUrl.verify rt this now url context = Throw BlackholedSignatureError)
    /\ (SignUrl.ip_rejected u context = false ->
        SignUrl.method_rejected u context = false ->
        SignUrl.expired u now = true ->
        SignUrl.verify rt this now url context = Throw ExpiredSignatureError)
    /\ (SignUrl.ip_rejected u context = false ->
        SignUrl.method_rejected u context = false ->
        SignUrl.expired u now = false ->
        forall digest,
          SignUrl.hash this (SignedURLData.urlWithoutSignature u) = Ok digest ->
          SignUrl.verify rt this now url context
          = if str_eqb (SignedURLData.signature u) digest then Ok true
            else Throw MismatchSignatureError)
    /\ (truthy (SignedURLData.ipAddress u) = true ->
        VerifyOptions.ipAddress context <> Some (SignedURLData.ipAddress u) ->
        SignUrl.expired u now = true ->
        SignUrl.verify rt this now url context = Throw BlackholedSignatureError).
Proof.
  intros rt this now url context u Hu.
  rewrite (verify_checks rt this now url context u Hu).
  repeat split.
  - intros ->. reflexivity.
  - intros -> ->. reflexivity.
  - intros -> -> ->. reflexivity.
  - intros -> -> -> digest Hd. unfold SignUrl.isValidURLSignature.
    rewrite Hd. cbn [throw_if bind].
    destruct (str_eqb (SignedURLData.signature u) digest); reflexivity.
  - intros Hip Hctx _.
    assert (Hrej : SignUrl.ip_rejected u context = true).
    { unfold SignUrl.ip_rejected. rewrite Hip. cbn [andb].
      destruct (VerifyOptions.ipAddress context) as [ip|]; [|reflexivity].
      cbn [or_empty]. destruct (truthy ip); [|reflexivity]. cbn [negb orb].
      destruct (str_eqb (SignedURLData.ipAddress u) ip) eqn:E; [|reflexivity].
      apply str_eqb_eq in E. subst ip. congruence. }
    rewrite Hrej. reflexivity.
Qed.

(** The URL bound to [1.2.3.4], verified from [5.6.7.8] one millisecond
    after its expiry. *)
Lemma verify_check_order_witness :
  SignUrl.sign scenario_signer 1692277975000 example_random "http://x/y"
    bound_options = Ok bound_url
  /\ SignUrl.extractUrlData example_runtime bound_url = Ok bound_data
  /\ truthy (SignedURLData.ipAddress bound_data) = true
  /\ SignUrl.expired bound_data 1700000000001 = true
  /\ SignUrl.verify example_runtime scenario_signer 1700000000001 bound_url
       (context_of (Some "GET") (Some "5.6.7.8"))
     = Throw BlackholedSignatureError.
Proof.
  assert (Hu : SignUrl.extractUrlData example_runtime bound_url = Ok bound_data)
    by (vm_compute; reflexivity).
  assert (Hctx : VerifyOptions.ipAddress (context_of (Some "GET") (Some "5.6.7.8"))
                 <> Some (SignedURLData.ipAddress bound_data))
    by (cbn; discriminate).
  split; [vm_compute; reflexivity|].
  split; [exact Hu|]. split; [reflexivity|]. split; [reflexivity|].
  exact (proj2 (proj2 (proj2 (proj2
    (verify_check_order example_runtime scenario_signer 1700000000001
       bound_url (context_of (Some "GET") (Some "5.6.7.8")) bound_data Hu))))
    eq_refl Hctx eq_refl).
Defined.

(** ** Method enforcement *)



(** ** A context without a method *)

(** C5. When the URL carries a method and the context passes none, the
    method test of [verify] does not reject: its left operand is the
    boolean [true], which is never [=== -1]. [verify] goes on with the
    expiry and the digest, and can return true: the README verifies its
    example URL, signed for [GET], with no options at all. *)
Theorem verify_without_context_method :
  (forall (rt : Runtime) (this : SignUrl.t) (now : Z) (url : str)
          (context : VerifyOptions.t) (u : SignedURLData.t),
      SignUrl.extractUrlData rt url = Ok u ->
      truthy (SignedURLData.method u) = true ->
      VerifyOptions.method context = None ->
      SignUrl.method_rejected u context = false
      /\ SignUrl.verify rt this now url context
         = (_ <- throw_if (SignUrl.ip_rejected u context) BlackholedSignatureError ;;
            _ <- throw_if (SignUrl.expired u now) ExpiredSignatureError ;;
            valid <- SignUrl.isValidURLSignature this
                       (SignedURLData.urlWithoutSignature u)
                       (SignedURLData.signature u) ;;
            _ <- throw_if (negb valid) MismatchSignatureError ;;
            Ok true))
  /\ (exists u,
        SignUrl.extractUrlData example_runtime readme_url = Ok u
        /\ SignedURLData.method u = "GET"
        /\ SignUrl.verify example_runtime readme_signer 1692277975099
             readme_url VerifyOptions.empty = Ok true).
Proof.
  split.
  - intros rt this now url context u Hu Hm Hc.
    assert (Hrej : SignUrl.method_rejected u context = false).
    { unfold SignUrl.method_rejected. rewrite Hc. cbn [or_empty truthy negb].
      cbn [bool_or_number strict_eq_number]. apply andb_false_r. }
    split; [exact Hrej|].
    rewrite (verify_checks rt this now url context u Hu), Hrej.
    destruct (SignUrl.ip_rejected u context); reflexivity.
  - eexists. split; [vm_compute; reflexivity|].
    split; vm_compute; reflexivity.
Qed.

(** ** The digest *)



(** ** The wire format *)

(** C7. [sign] returns the URL, then [?] when the URL contains no [?] and
    [&] otherwise, then the attributes in the order expires, ip, method, r,
    the empty text standing for an absent attribute, then [&sig=] and the
    digest of everything before it. In the scenario of the specification
    the result is
    [http://x/y?expires=1700000000000&ip=&method=GET&r=<nonce>&sig=<hex>]. *)
Theorem sign_wire_format :
  forall (rt : Runtime) (this : SignUrl.t) (now : Z) (random : list Byte.byte)
         (url : str) (options : SignOptions.t),
    let expires :=
      match SignUrl.resolve_expires this now options with
      | Some z => if Z.eqb z 0 then [] else number_to_string z
      | None => []
      end in
    let ip :=
      match SignOptions.ipAddress options with Some a => a | None => [] end in
    let method :=
      match SignOptions.method options with
      | Some (Method m) => toUpperCase m
      | Some (Methods ms) => toUpperCase (join "," ms)
      | None => []
      end in
    let body :=
      url ++ (if lacks "?" url then "?" else "&")
          ++ "expires=" ++ expires ++ "&ip=" ++ ip ++ "&method=" ++ method
          ++ "&r=" ++ base64url random in
    SignUrl.sign this now random url options
    = (digest <- SignUrl.hash this body ;; Ok (body ++ "&sig=" ++ digest))
    /\ (In "sha256" (getHashes rt) ->
        let nonce := base64url random in
        let text := "http://x/y?expires=1700000000000&ip=&method=GET&r=" ++ nonce in
        SignUrl.sign
          (SignUrl.new rt {| SignatureOptions.key := Some "abc";
                             SignatureOptions.ttl := Some 0%Z;
                             SignatureOptions.hash := None |})
          now random "http://x/y" scenario_options
        = Ok (text ++ "&sig="
                ++ hex_encode (hmac rt "sha256" "abc" (text ++ "abc")))).
Proof.
  intros rt this now random url options expires ip method body. split.
  - unfold SignUrl.sign.
    replace (SignUrl.with_attributes url _) with body; [reflexivity|].
    unfold body, SignUrl.with_attributes. rewrite indexOf_char.
    cbn [SignatureData.expires SignatureData.ipAddress SignatureData.method
         SignatureData.r].
    f_equal. f_equal. f_equal.
    replace (SignUrl.expires_text (SignUrl.resolve_expires this now options))
      with expires.
    2:{ unfold expires, SignUrl.expires_text.
        destruct (SignUrl.resolve_expires this now options) as [z|];
          [|reflexivity].
        cbn [truthy_number]. destruct (Z.eqb z 0); reflexivity. }
    replace (or_empty (SignUrl.resolve_ipAddress options)) with ip.
    2:{ unfold ip, SignUrl.resolve_ipAddress.
        destruct (SignOptions.ipAddress options) as [[|c a]|]; reflexivity. }
    replace (or_empty (SignUrl.resolve_method options)) with method.
    2:{ unfold method, SignUrl.resolve_method.
        destruct (SignOptions.method options) as [[[|c m]|ms]|]; reflexivity. }
    reflexivity.
  - intros Hsha nonce text. unfold SignUrl.sign.
    change (SignUrl.with_attributes "http://x/y" _) with text.
    cbn [SignUrl.hash SignUrl.new SignatureOptions.hash SignatureOptions.key].
    rewrite (generateSignature_digest rt "abc" text "sha256" eq_refl Hsha).
    reflexivity.
Qed.

(** The scenario on the example runtime, with the nonce of the README. *)
Lemma sign_wire_format_witness :
  In "sha256" (getHashes example_runtime)
  /\ SignUrl.sign scenario_signer 1692277975000 example_random "http://x/y"
       scenario_options
     = Ok "http://x/y?expires=1700000000000&ip=&method=GET&r=KJ2Wxrgp9LCdmZxMIkv9UQ&sig=b4867e65143d3b17768edd00e1bb642b9adf27804d251e561a66a91ce75ace45".
Proof.
  split; [simpl; tauto|].
  refine (eq_trans
    (proj2 (sign_wire_format example_runtime scenario_signer 1692277975000
              example_random "http://x/y" scenario_options)
       (or_introl eq_refl)) _).
  vm_compute. reflexivity.
Defined.

(** ** The expiry *)

(** C8, amended. The engine's ttl, when it is not zero, decides the expiry:
    the clock plus that many minutes, when that is a time a [Date] holds
    (at most 8.64e15 milliseconds from the epoch); beyond, the sum is [NaN]
    and there is no expiry. Otherwise [options.ttl], when it is given and
    not zero, decides it the same way. Otherwise [options.expires], when it
    is given and not zero, is the expiry. Otherwise there is none. *)
Theorem resolve_expires_precedence :
  forall (this : SignUrl.t) (now : Z) (options : SignOptions.t),
    (SignUrl.ttl this <> 0%Z ->
     ((Z.abs (now + SignUrl.ttl this * 60000) <= 8640000000000000)%Z ->
      SignUrl.resolve_expires this now options
      = Some (now + SignUrl.ttl this * 60000)%Z)
     /\ ((8640000000000000 < Z.abs (now + SignUrl.ttl this * 60000))%Z ->
         SignUrl.resolve_expires this now options = None))
    /\ (SignUrl.ttl this = 0%Z ->
        forall t, SignOptions.ttl options = Some t -> t <> 0%Z ->
        ((Z.abs (now + t * 60000) <= 8640000000000000)%Z ->
         SignUrl.resolve_expires this now options = Some (now + t * 60000)%Z)
        /\ ((8640000000000000 < Z.abs (now + t * 60000))%Z ->
            SignUrl.resolve_expires this now options = None))
    /\ (SignUrl.ttl this = 0%Z ->
        SignOptions.ttl options = None \/ SignOptions.ttl options = Some 0%Z ->
        forall e, SignOptions.expires options = Some e -> e <> 0%Z ->
        SignUrl.resolve_expires this now options = Some e)
    /\ (SignUrl.ttl this = 0%Z ->
        SignOptions.ttl options = None \/ SignOptions.ttl options = Some 0%Z ->
        SignOptions.expires options = None
        \/ SignOptions.expires options = Some 0%Z ->
        SignUrl.resolve_expires this now options = None).
Proof.
  intros this now options.
  unfold SignUrl.resolve_expires, SignUrl.given, SignUrl.add_valueOf,
    SignUrl.time_clip, SignUrl.add_minutes.
  split; [|split; [|split]].
  - intros H. apply Z.eqb_neq in H. rewrite H. cbn [negb].
    split; intros Hr; [apply Z.leb_le in Hr | apply Z.leb_gt in Hr];
      rewrite Hr; reflexivity.
  - intros -> t -> Ht. apply Z.eqb_neq in Ht. cbn [Z.eqb negb truthy_number].
    rewrite Ht. cbn [negb].
    split; intros Hr; [apply Z.leb_le in Hr | apply Z.leb_gt in Hr];
      rewrite Hr; reflexivity.
  - intros -> [-> | ->] e -> He; apply Z.eqb_neq in He; cbn; rewrite He;
      reflexivity.
  - intros -> [-> | ->] [-> | ->]; reflexivity.
Qed.

(** C8 as stated fails when [options.ttl] is given as zero: the engine's
    ttl is zero and [options.ttl] is given, yet the expiry is
    [options.expires] and not the clock plus zero minutes. *)
Lemma resolve_expires_zero_ttl :
  SignUrl.ttl scenario_signer = 0%Z
  /\ SignOptions.ttl zero_ttl_options = Some 0%Z
  /\ SignUrl.resolve_expires scenario_signer 1692277975000 zero_ttl_options
     = Some 1700000000000%Z
  /\ SignUrl.add_minutes 1692277975000 0 = 1692277975000%Z
  /\ SignUrl.sign scenario_signer 1692277975000 example_random "http://x/y"
       zero_ttl_options
     = Ok "http://x/y?expires=1700000000000&ip=&method=&r=KJ2Wxrgp9LCdmZxMIkv9UQ&sig=4787e7168df2204e456400b345f3164cd497641279846521eb722f9ec625dcf1".
Proof. repeat split; vm_compute; reflexivity. Qed.

(** ** Configuration errors *)

(** C9, amended. With a named algorithm, [sign] throws [NotProvideKeyError]
    exactly when the key is absent or empty; it throws
    [NotSupportedAlgorithmError] exactly when the key is present and not
    empty and the runtime does not list the algorithm; otherwise, when the
    runtime has an HMAC for the algorithm (its digest is not empty), it
    returns a string. Building the engine never fails. *)
Theorem sign_configuration_errors :
  forall (rt : Runtime) (key : option str) (ttl : option Z) (algorithm : str)
         (now : Z) (random : list Byte.byte) (url : str)
         (options : SignOptions.t),
    let this :=
      SignUrl.new rt {| SignatureOptions.key := key;
                        SignatureOptions.ttl := ttl;
                        SignatureOptions.hash := Some (HashName algorithm) |} in
    (SignUrl.sign this now random url options = Throw NotProvideKeyError
     <-> key = None \/ key = Some [])
    /\ (SignUrl.sign this now random url options
        = Throw NotSupportedAlgorithmError
        <-> (exists c k, key = Some (c :: k))
            /\ ~ In algorithm (getHashes rt))
    /\ (forall c k,
          key = Some (c :: k) ->
          In algorithm (getHashes rt) ->
          (forall data, hmac rt algorithm (c :: k) data <> []) ->
          exists signed, SignUrl.sign this now random url options = Ok signed).
Proof.
  intros rt key ttl algorithm now random url options this.
  unfold SignUrl.sign.
  cbn [this SignUrl.hash SignUrl.new SignatureOptions.hash SignatureOptions.key].
  unfold SignUrl.generateSignature, SignUrl.isProvidedKey,
    SignUrl.isValidAlgorithm.
  pose proof (includes_In (getHashes rt) algorithm) as Hin.
  destruct key as [[|c k]|]; cbn [or_empty truthy negb throw_if bind].
  - split; [split; auto|]. split; [split|].
    + discriminate.
    + intros [(c & k & E) _]. discriminate.
    + intros c k E. discriminate.
  - destruct (includes (getHashes rt) algorithm) eqn:E;
      cbn [negb throw_if bind].
    + split; [split; [discriminate | intros [E' | E']; discriminate]|].
      split; [split|].
      * discriminate.
      * intros [_ Hn]. exfalso. apply Hn, Hin. reflexivity.
      * intros c' k' _ _ _. eexists. reflexivity.
    + split; [split; [discriminate | intros [E' | E']; discriminate]|].
      split; [split|].
      * intros _. split; [exists c, k; reflexivity|].
        intros Hn. apply Hin in Hn. discriminate.
      * reflexivity.
      * intros c' k' _ Hn. apply Hin in Hn. discriminate.
  - split; [split; auto|]. split; [split|].
    + discriminate.
    + intros [(c & k & E) _]. discriminate.
    + intros c k E. discriminate.
Qed.

(** C9 as stated fails when the key is missing and the algorithm is
    unknown: the algorithm is not among the runtime's, and [sign] throws
    [NotProvideKeyError], not [NotSupportedAlgorithmError]. *)
Lemma sign_missing_key_first :
  includes (getHashes example_runtime) "md999" = false
  /\ SignUrl.sign keyless_signer 1692277975000 example_random "http://x/y"
       SignOptions.empty
     = Throw NotProvideKeyError.
Proof. split; reflexivity. Qed.

(** ** Substring search in the method check *)

(** C10. The method check searches the upper-cased context method in the
    joined text of the signed methods: whenever it occurs there, the check
    passes. With the one signed method [WIDGET] and the context method
    [GET], which is no element of the list, [verify] returns true. *)
Theorem method_check_is_substring_search :
  (forall (u : SignedURLData.t) (context : VerifyOptions.t) (c : str),
      VerifyOptions.method context = Some c ->
      Z.eqb (indexOf (SignedURLData.method u) (toUpperCase c)) (-1) = false ->
      SignUrl.method_rejected u context = false)
  /\ (existsb (str_eqb (toUpperCase "GET")) ["WIDGET"] = false
      /\ indexOf (toUpperCase (join "," ["WIDGET"])) (toUpperCase "GET") = 3%Z
      /\ exists signed u,
           SignUrl.sign scenario_signer 1692277975000 example_random
             "http://x/y" widget_options = Ok signed
           /\ SignUrl.extractUrlData example_runtime signed = Ok u
           /\ SignedURLData.method u = "WIDGET"
           /\ SignUrl.method_rejected u (context_of (Some "GET") None) = false
           /\ SignUrl.verify example_runtime scenario_signer 1692277976000
                signed (context_of (Some "GET") None) = Ok true).
Proof.
  split.
  - intros u context c Hc Hfound.
    apply (method_found (SignedURLData.method u) c Hfound u context eq_refl Hc).
  - split; [reflexivity|]. split; [reflexivity|].
    eexists. eexists. split; [vm_compute; reflexivity|].
    split; [vm_compute; reflexivity|].
    repeat split; vm_compute; reflexivity.
Qed.

(* ================================================================= *)
(** * Further properties of the code *)

(** ** What [verify] returns *)

Lemma verify_Ok_inv (rt : Runtime) (this : SignUrl.t) (now : Z) (url : str)
    (context : VerifyOptions.t) (b : bool) :
  SignUrl.verify rt this now url context = Ok b ->
  b = true
  /\ exists u,
       SignUrl.extractUrlData rt url = Ok u
       /\ SignUrl.ip_rejected u context = false
       /\ SignUrl.method_rejected u context = false
       /\ SignUrl.expired u now = false
       /\ SignUrl.hash this (SignedURLData.urlWithoutSignature u)
          = Ok (SignedURLData.signature u).
Proof.
  unfold SignUrl.verify.
  destruct (SignUrl.extractUrlData rt url) as [u|e] eqn:Hu; [|discriminate].
  cbn [bind].
  destruct (SignUrl.ip_rejected u context) eqn:Hip; [discriminate|].
  destruct (SignUrl.method_rejected u context) eqn:Hm; [discriminate|].
  destruct (SignUrl.expired u now) eqn:He; [discriminate|].
  cbn [throw_if bind]. unfold SignUrl.isValidURLSignature.
  destruct (SignUrl.hash this (SignedURLData.urlWithoutSignature u))
    as [digest|e] eqn:Hh; [|discriminate].
  cbn [bind].
  destruct (str_eqb (SignedURLData.signature u) digest) eqn:E; [|discriminate].
  cbn [negb throw_if bind]. intros [= <-]. split; [reflexivity|].
  apply str_eqb_eq in E. subst digest. exists u. auto.
Qed.

(** X1. [verify] never returns false: whenever it returns, the value is
    true; every rejection is an exception. *)
Theorem verify_returns_only_true :
  forall (rt : Runtime) (this : SignUrl.t) (now : Z) (url : str)
         (context : VerifyOptions.t) (b : bool),
    SignUrl.verify rt this now url context = Ok b -> b = true.
Proof.
  intros rt this now url context b H.
  apply (verify_Ok_inv rt this now url context b H).
Qed.

Lemma verify_returns_only_true_witness :
  SignUrl.verify example_runtime readme_signer 1692277975099 readme_url
    VerifyOptions.empty = Ok true
  /\ true = true.
Proof.
  assert (H : SignUrl.verify example_runtime readme_signer 1692277975099
                readme_url VerifyOptions.empty = Ok true)
    by (vm_compute; reflexivity).
  split; [exact H|].
  exact (verify_returns_only_true example_runtime readme_signer 1692277975099
           readme_url VerifyOptions.empty true H).
Defined.

(** X2. [verify] returns true exactly when the URL constructor accepts the
    URL, the IP and method checks do not reject, the expiry has not passed,
    and the [sig] parameter is the engine's digest of the URL with the
    signature removed. *)
Theorem verify_true_iff :
  forall (rt : Runtime) (this : SignUrl.t) (now : Z) (url : str)
         (context : VerifyOptions.t),
    SignUrl.verify rt this now url context = Ok true
    <-> exists u,
          SignUrl.extractUrlData rt url = Ok u
          /\ SignUrl.ip_rejected u context = false
          /\ SignUrl.method_rejected u context = false
          /\ SignUrl.expired u now = false
          /\ SignUrl.hash this (SignedURLData.urlWithoutSignature u)
             = Ok (SignedURLData.signature u).
Proof.
  intros rt this now url context. split.
  - intros H. apply (verify_Ok_inv rt this now url context true H).
  - intros (u & Hu & Hip & Hm & He & Hh).
    apply (verify_accepts rt this now url context u Hu Hip Hm He Hh).
Qed.

(** ** The clock *)

Lemma expired_monotone (u : SignedURLData.t) (now later : Z) :
  (now <= later)%Z -> SignUrl.expired u later = false ->
  SignUrl.expired u now = false.
Proof.
  unfold SignUrl.expired. intros Hle.
  destruct (truthy_number (SignedURLData.expires u)); [|reflexivity].
  destruct (SignedURLData.expires u) as [z|]; [|reflexivity].
  cbn [andb]. rewrite !Z.ltb_ge. lia.
Qed.

(** X3. A URL that [verify] accepts at some clock is accepted at every
    earlier clock, with the same context: the passing of time only ever
    turns an accepted URL into a rejected one. *)
Theorem verify_earlier :
  forall (rt : Runtime) (this : SignUrl.t) (now later : Z) (url : str)
         (context : VerifyOptions.t),
    (now <= later)%Z ->
    SignUrl.verify rt this later url context = Ok true ->
    SignUrl.verify rt this now url context = Ok true.
Proof.
  intros rt this now later url context Hle H.
  destruct (verify_Ok_inv rt this later url context true H)
    as (_ & u & Hu & Hip & Hm & He & Hh).
  apply (verify_accepts rt this now url context u Hu Hip Hm
           (expired_monotone u now later Hle He) Hh).
Qed.

Lemma verify_earlier_witness :
  (0 <= 1692277975099)%Z
  /\ SignUrl.verify example_runtime readme_signer 0 readme_url
       VerifyOptions.empty = Ok true.
Proof.
  assert (Hle : (0 <= 1692277975099)%Z) by lia.
  split; [exact Hle|].
  apply (verify_earlier example_runtime readme_signer 0 1692277975099
           readme_url VerifyOptions.empty Hle).
  vm_compute. reflexivity.
Defined.

(** X4. A URL whose [expires] parameter is missing, empty, zero or not a
    number has no expiry: [verify] gives the same result at every clock. *)
Theorem verify_without_expiry :
  forall (rt : Runtime) (this : SignUrl.t) (now later : Z) (url : str)
         (context : VerifyOptions.t) (u : SignedURLData.t),
    SignUrl.extractUrlData rt url = Ok u ->
    truthy_number (SignedURLData.expires u) = false ->
    SignUrl.verify rt this now url context
    = SignUrl.verify rt this later url context.
Proof.
  intros rt this now later url context u Hu He.
  rewrite !(verify_checks rt this _ url context u Hu).
  unfold SignUrl.expired. rewrite He. reflexivity.
Qed.

(** A URL signed without an expiry, and one whose [expires] is no number. *)
Lemma verify_without_expiry_witness :
  SignUrl.verify example_runtime scenario_signer 0
    "http://x/y?expires=&ip=&method=&r=KJ2Wxrgp9LCdmZxMIkv9UQ&sig=ab"
    VerifyOptions.empty
  = SignUrl.verify example_runtime scenario_signer 99999999999999
      "http://x/y?expires=&ip=&method=&r=KJ2Wxrgp9LCdmZxMIkv9UQ&sig=ab"
      VerifyOptions.empty
  /\ SignUrl.verify example_runtime scenario_signer 0
       "http://x/y?expires=soon&ip=&method=&r=KJ2Wxrgp9LCdmZxMIkv9UQ&sig=ab"
       VerifyOptions.empty
     = SignUrl.verify example_runtime scenario_signer 99999999999999
         "http://x/y?expires=soon&ip=&method=&r=KJ2Wxrgp9LCdmZxMIkv9UQ&sig=ab"
         VerifyOptions.empty.
Proof.
  split.
  - assert (Hu : exists u,
        SignUrl.extractUrlData example_runtime
          "http://x/y?expires=&ip=&method=&r=KJ2Wxrgp9LCdmZxMIkv9UQ&sig=ab"
        = Ok u /\ truthy_number (SignedURLData.expires u) = false)
      by (eexists; split; vm_compute; reflexivity).
    destruct Hu as (u & Hu & He).
    exact (verify_without_expiry example_runtime scenario_signer 0
             99999999999999 _ VerifyOptions.empty u Hu He).
  - assert (Hu : exists u,
        SignUrl.extractUrlData example_runtime
          "http://x/y?expires=soon&ip=&method=&r=KJ2Wxrgp9LCdmZxMIkv9UQ&sig=ab"
        = Ok u /\ truthy_number (SignedURLData.expires u) = false)
      by (eexists; split; vm_compute; reflexivity).
    destruct Hu as (u & Hu & He).
    exact (verify_without_expiry example_runtime scenario_signer 0
             99999999999999 _ VerifyOptions.empty u Hu He).
Defined.

(** ** The errors of [verify] *)

(** X5. With a key and a supported algorithm for which the runtime has an
    HMAC (its digest is not empty), [verify] of a URL that the URL
    constructor accepts either returns true or throws one of the three
    signature errors; of a URL that the constructor rejects, it throws the
    constructor's [TypeError]. *)
Theorem verify_error_classes :
  forall (rt : Runtime) (key algorithm : str) (ttl : option Z) (now : Z)
         (url : str) (context : VerifyOptions.t),
    let this :=
      SignUrl.new rt {| SignatureOptions.key := Some key;
                        SignatureOptions.ttl := ttl;
                        SignatureOptions.hash := Some (HashName algorithm) |} in
    truthy key = true ->
    In algorithm (getHashes rt) ->
    (forall data, hmac rt algorithm key data <> []) ->
    (URL_canParse rt url = true ->
     SignUrl.verify rt this now url context = Ok true
     \/ SignUrl.verify rt this now url context = Throw BlackholedSignatureError
     \/ SignUrl.verify rt this now url context = Throw ExpiredSignatureError
     \/ SignUrl.verify rt this now url context = Throw MismatchSignatureError)
    /\ (URL_canParse rt url = false ->
        SignUrl.verify rt this now url context = Throw TypeError).
Proof.
  intros rt key algorithm ttl now url context this Hkey Halg _.
  unfold SignUrl.verify, SignUrl.extractUrlData, new_URL. split; intros ->.
  - cbn [bind].
    match goal with
    | |- context [throw_if (SignUrl.ip_rejected ?u context)] => set (d := u)
    end.
    destruct (SignUrl.ip_rejected d context); [auto|].
    destruct (SignUrl.method_rejected d context); [auto|].
    destruct (SignUrl.expired d now); [auto|].
    cbn [throw_if bind]. unfold SignUrl.isValidURLSignature.
    change (SignUrl.hash this (SignedURLData.urlWithoutSignature d))
      with (SignUrl.generateSignature rt (Some key)
              (SignedURLData.urlWithoutSignature d) algorithm).
    rewrite (generateSignature_digest rt key _ algorithm Hkey Halg).
    cbn [bind]. destruct (str_eqb _ _); cbn [negb throw_if bind]; auto.
  - reflexivity.
Qed.

Lemma verify_error_classes_witness :
  URL_canParse example_runtime readme_url = true
  /\ (SignUrl.verify example_runtime scenario_signer 1692277975099 readme_url
        VerifyOptions.empty = Ok true
      \/ SignUrl.verify example_runtime scenario_signer 1692277975099
           readme_url VerifyOptions.empty = Throw BlackholedSignatureError
      \/ SignUrl.verify example_runtime scenario_signer 1692277975099
           readme_url VerifyOptions.empty = Throw ExpiredSignatureError
      \/ SignUrl.verify example_runtime scenario_signer 1692277975099
           readme_url VerifyOptions.empty = Throw MismatchSignatureError).
Proof.
  assert (H : URL_canParse example_runtime readme_url = true)
    by (vm_compute; reflexivity).
  split; [exact H|].
  exact (proj1 (verify_error_classes example_runtime "abc" "sha256" (Some 0%Z)
                  1692277975099 readme_url VerifyOptions.empty eq_refl
                  (or_introl eq_refl) (example_hmac_not_empty "sha256" "abc"))
           H).
Defined.

(** X6. A URL without a [sig] parameter, or with an empty one, is never
    accepted by an engine with a named algorithm whose HMAC is not empty:
    [verify] throws. *)
Theorem verify_rejects_unsigned :
  forall (rt : Runtime) (key : option str) (algorithm : str) (ttl : option Z)
         (now : Z) (url : str) (context : VerifyOptions.t)
         (u : SignedURLData.t),
    let this :=
      SignUrl.new rt {| SignatureOptions.key := key;
                        SignatureOptions.ttl := ttl;
                        SignatureOptions.hash := Some (HashName algorithm) |} in
    (forall k data, hmac rt algorithm k data <> []) ->
    SignUrl.extractUrlData rt url = Ok u ->
    SignedURLData.signature u = [] ->
    exists e, SignUrl.verify rt this now url context = Throw e.
Proof.
  intros rt key algorithm ttl now url context u this Hmac Hu Hsig.
  destruct (SignUrl.verify rt this now url context) as [b|e] eqn:Hv;
    [|exists e; reflexivity].
  exfalso.
  destruct (verify_Ok_inv rt this now url context b Hv)
    as (_ & u' & Hu' & _ & _ & _ & Hh).
  rewrite Hu in Hu'. injection Hu' as <-. rewrite Hsig in Hh.
  change (SignUrl.hash this (SignedURLData.urlWithoutSignature u))
    with (SignUrl.generateSignature rt key
            (SignedURLData.urlWithoutSignature u) algorithm) in Hh.
  unfold SignUrl.generateSignature in Hh.
  destruct (SignUrl.isProvidedKey key); [|discriminate].
  destruct (SignUrl.isValidAlgorithm rt algorithm); [|discriminate].
  cbn [negb throw_if bind] in Hh. injection Hh as Hh.
  unfold digest_hex in Hh. cbn [hmac_algorithm hmac_key hmac_data update
    createHmac] in Hh.
  apply (f_equal (@length _)) in Hh. rewrite hex_encode_length in Hh.
  match type of Hh with
  | context [hmac rt algorithm ?k ?m] =>
      specialize (Hmac k m); destruct (hmac rt algorithm k m);
        [congruence | discriminate]
  end.
Qed.

Lemma verify_rejects_unsigned_witness :
  exists e,
    SignUrl.verify example_runtime scenario_signer 1692277975099
      "http://localhost:8080/example?expires=1692277975099&ip=&method=GET&r=KJ2Wxrgp9LCdmZxMIkv9UQ"
      (context_of (Some "GET") None) = Throw e.
Proof.
  assert (Hu : exists u,
      SignUrl.extractUrlData example_runtime
        "http://localhost:8080/example?expires=1692277975099&ip=&method=GET&r=KJ2Wxrgp9LCdmZxMIkv9UQ"
      = Ok u /\ SignedURLData.signature u = [])
    by (eexists; split; vm_compute; reflexivity).
  destruct Hu as (u & Hu & Hs).
  exact (verify_rejects_unsigned example_runtime (Some "abc") "sha256"
           (Some 0%Z) 1692277975099 _ (context_of (Some "GET") None) u
           (fun k data => example_hmac_not_empty "sha256" k data) Hu Hs).
Defined.

(** ** What the regular expression leaves alone *)

(** X7. A URL that does not contain [&sig=] comes out of [extractUrlData]
    unchanged as [urlWithoutSignature]. *)
Theorem extractUrlData_keeps_unsigned :
  forall (rt : Runtime) (url : str) (u : SignedURLData.t),
    indexOf url "&sig=" = (-1)%Z ->
    SignUrl.extractUrlData rt url = Ok u ->
    SignedURLData.urlWithoutSignature u = url.
Proof.
  intros rt url u Hmarker Hu. unfold SignUrl.extractUrlData in Hu.
  destruct (new_URL rt url); [|discriminate]. injection Hu as <-.
  cbn [SignedURLData.urlWithoutSignature]. unfold replace_sig.
  rewrite <- (app_nil_r url) at 1.
  rewrite replace_from_keep; [apply app_nil_r|].
  intros a1 c a2 E. rewrite app_nil_r.
  apply (indexOf_from_none url "&sig=" 0 a1 a2 c (Z.le_refl 0) Hmarker E).
Qed.

Lemma extractUrlData_keeps_unsigned_witness :
  indexOf "http://x/y?sig=abc&a=1" "&sig=" = (-1)%Z
  /\ exists u,
       SignUrl.extractUrlData example_runtime "http://x/y?sig=abc&a=1" = Ok u
       /\ SignedURLData.urlWithoutSignature u = "http://x/y?sig=abc&a=1".
Proof.
  split; [reflexivity|].
  assert (Hu : exists u,
      SignUrl.extractUrlData example_runtime "http://x/y?sig=abc&a=1" = Ok u)
    by (eexists; vm_compute; reflexivity).
  destruct Hu as (u & Hu). exists u. split; [exact Hu|].
  exact (extractUrlData_keeps_unsigned example_runtime
           "http://x/y?sig=abc&a=1" u eq_refl Hu).
Defined.

(** ** After [sign]: what [extractUrlData] and [verify] find *)

Lemma signed_get_free (url : str) (d : SignatureData.t) (sg name : str) :
  signable url = true -> plain_attributes d = true -> word_digest sg = true ->
  searchParams_get (urlencoded_parse (url_query (url_head url))) name = None ->
  searchParams_get
    (urlencoded_parse
       (url_query (url_input (SignUrl.with_attributes url d ++ "&sig=" ++ sg))))
    name
  = searchParams_get (attribute_pairs d ++ [("sig", sg)]) name.
Proof.
  intros Hurl Hd Hsg Hfree.
  rewrite (signed_query url d sg Hurl Hd Hsg), searchParams_get_app, Hfree.
  reflexivity.
Qed.

Lemma extractUrlData_nonce (rt : Runtime) (url : str) (u : SignedURLData.t) :
  SignUrl.extractUrlData rt url = Ok u ->
  SignedURLData.r u
  = or_empty (searchParams_get
                (urlencoded_parse (url_query (url_input url))) "r").
Proof.
  unfold SignUrl.extractUrlData, new_URL.
  destruct (URL_canParse rt url); [|discriminate].
  intros [= <-]. reflexivity.
Qed.

Lemma truthy_number_value (e : option Z) :
  (if truthy_number e then match e with Some z => z | None => 0%Z end
   else 0%Z)
  = match e with Some z => z | None => 0%Z end.
Proof.
  destruct e as [z|]; [|reflexivity]. cbn [truthy_number].
  destruct (Z.eqb z 0) eqn:E; [|reflexivity].
  apply Z.eqb_eq in E. subst z. reflexivity.
Qed.

Section AfterSign.

Variables (rt : Runtime) (key algorithm : str) (ttl : option Z).
Variables (now : Z) (random : list Byte.byte) (url : str).
Variable options : SignOptions.t.

Let this : SignUrl.t :=
  SignUrl.new rt {| SignatureOptions.key := Some key;
                    SignatureOptions.ttl := ttl;
                    SignatureOptions.hash := Some (HashName algorithm) |}.

Let d : SignatureData.t :=
  {| SignatureData.r := base64url random;
     SignatureData.expires := SignUrl.resolve_expires this now options;
     SignatureData.method := SignUrl.resolve_method options;
     SignatureData.ipAddress := SignUrl.resolve_ipAddress options |}.

Let hashed : str := SignUrl.with_attributes url d.
Let digest : str := hex_encode (hmac rt algorithm key (hashed ++ key)).

Hypothesis Hkey : truthy key = true.
Hypothesis Halg : In algorithm (getHashes rt).
Hypothesis Hmac : forall data, hmac rt algorithm key data <> [].
Hypothesis Hurl : signable url = true.
Hypothesis Hopts : plain_options options = true.

Lemma after_sign_hash : SignUrl.hash this hashed = Ok digest.
Proof. apply (generateSignature_digest rt key hashed algorithm Hkey Halg). Qed.

Lemma after_sign_digest : word_digest digest = true.
Proof. apply hex_encode_word_digest, Hmac. Qed.

Lemma after_sign_attributes : plain_attributes d = true.
Proof. apply (plain_options_attributes this now random options Hopts). Qed.

Lemma after_sign_result :
  SignUrl.sign this now random url options = Ok (hashed ++ "&sig=" ++ digest).
Proof.
  unfold SignUrl.sign. fold d. fold hashed. rewrite after_sign_hash.
  reflexivity.
Qed.

Lemma after_sign_extract :
  URL_canParse rt (hashed ++ "&sig=" ++ digest) = true ->
  exists u,
    SignUrl.extractUrlData rt (hashed ++ "&sig=" ++ digest) = Ok u
    /\ SignedURLData.urlWithoutSignature u = hashed
    /\ SignedURLData.expires u
       = Some (match SignUrl.resolve_expires this now options with
               | Some z => z
               | None => 0%Z
               end)
    /\ SignedURLData.ipAddress u = or_empty (SignUrl.resolve_ipAddress options)
    /\ SignedURLData.method u = or_empty (SignUrl.resolve_method options)
    /\ SignedURLData.signature u = digest.
Proof.
  intros Hparse.
  destruct (extractUrlData_signed rt url d digest Hurl after_sign_attributes
              after_sign_digest Hparse)
    as (u & Hu & Hbody & Hexp & Hip & Hm & Hs).
  exists u. rewrite truthy_number_value in Hexp. auto 10.
Qed.

End AfterSign.

(** X8. The parts of a signed URL. For a signable URL without a parameter
    named [r], plain options, a resolved expiry that is a safe integer (or
    none) and a named algorithm with a key, [sign] returns the hashed text
    followed by [&sig=] and its digest, and [extractUrlData] reads back from
    it the hashed text, the expiry, the address, the upper-cased methods,
    the nonce and the digest that [sign] wrote. *)
Theorem extractUrlData_after_sign :
  forall (rt : Runtime) (key algorithm : str) (ttl : option Z) (now : Z)
         (random : list Byte.byte) (url : str) (options : SignOptions.t),
    let this :=
      SignUrl.new rt {| SignatureOptions.key := Some key;
                        SignatureOptions.ttl := ttl;
                        SignatureOptions.hash := Some (HashName algorithm) |} in
    truthy key = true ->
    In algorithm (getHashes rt) ->
    (forall data, hmac rt algorithm key data <> []) ->
    signable url = true ->
    has_parameter url "r" = false ->
    plain_options options = true ->
    safe_expiry (SignUrl.resolve_expires this now options) = true ->
    exists hashed digest,
      SignUrl.hash this hashed = Ok digest
      /\ SignUrl.sign this now random url options
         = Ok (hashed ++ "&sig=" ++ digest)
      /\ (URL_canParse rt (hashed ++ "&sig=" ++ digest) = true ->
          SignUrl.extractUrlData rt (hashed ++ "&sig=" ++ digest)
          = Ok {| SignedURLData.urlWithoutSignature := hashed;
                  SignedURLData.expires :=
                    Some (match SignUrl.resolve_expires this now options with
                          | Some z => z
                          | None => 0%Z
                          end);
                  SignedURLData.ipAddress :=
                    or_empty (SignUrl.resolve_ipAddress options);
                  SignedURLData.method :=
                    or_empty (SignUrl.resolve_method options);
                  SignedURLData.r := base64url random;
                  SignedURLData.signature := digest |}).
Proof.
  intros rt key algorithm ttl now random url options this Hkey Halg Hmac Hurl
    Hr Hopts _.
  eexists. eexists.
  split; [apply (after_sign_hash rt key algorithm ttl now random url options
                   Hkey Halg)|].
  split; [apply (after_sign_result rt key algorithm ttl now random url options
                   Hkey Halg)|].
  intros Hparse.
  destruct (after_sign_extract rt key algorithm ttl now random url options
              Hmac Hurl Hopts Hparse)
    as (u & Hu & Hbody & Hexp & Hip & Hm & Hs).
  rewrite Hu. f_equal.
  assert (Hnonce : SignedURLData.r u = base64url random).
  { rewrite (extractUrlData_nonce rt _ u Hu).
    rewrite signed_get_free; try assumption.
    - reflexivity.
    - apply (after_sign_attributes rt key algorithm ttl now random options
               Hopts).
    - apply (after_sign_digest rt key algorithm ttl now random url options
               Hmac).
    - unfold has_parameter in Hr.
      destruct (searchParams_get _ "r"); [discriminate | reflexivity]. }
  destruct u as [u1 u2 u3 u4 u5 u6].
  cbn [SignedURLData.urlWithoutSignature SignedURLData.expires
       SignedURLData.ipAddress SignedURLData.method SignedURLData.r
       SignedURLData.signature] in Hbody, Hexp, Hip, Hm, Hs, Hnonce.
  subst u1 u2 u3 u4 u5 u6. reflexivity.
Qed.

(** The URL bound to [1.2.3.4]. *)
Lemma extractUrlData_after_sign_witness :
  signable "http://x/y" = true
  /\ has_parameter "http://x/y" "r" = false
  /\ plain_options bound_options = true
  /\ exists hashed digest,
       SignUrl.hash scenario_signer hashed = Ok digest
       /\ SignUrl.sign scenario_signer 1692277975000 example_random
            "http://x/y" bound_options
          = Ok (hashed ++ "&sig=" ++ digest)
       /\ (URL_canParse example_runtime (hashed ++ "&sig=" ++ digest) = true ->
           SignUrl.extractUrlData example_runtime (hashed ++ "&sig=" ++ digest)
           = Ok {| SignedURLData.urlWithoutSignature := hashed;
                   SignedURLData.expires := Some 1700000000000%Z;
                   SignedURLData.ipAddress := "1.2.3.4";
                   SignedURLData.method := "GET";
                   SignedURLData.r := "KJ2Wxrgp9LCdmZxMIkv9UQ";
                   SignedURLData.signature := digest |}).
Proof.
  split; [reflexivity|]. split; [reflexivity|]. split; [reflexivity|].
  exact (extractUrlData_after_sign example_runtime "abc" "sha256" (Some 0%Z)
           1692277975000 example_random "http://x/y" bound_options
           eq_refl (or_introl eq_refl)
           (example_hmac_not_empty "sha256" "abc") eq_refl eq_refl eq_refl
           eq_refl).
Defined.

(** X9. Expiry is enforced. Under the conditions of the round trip, with a
    context that passes the IP and method checks, a URL whose resolved
    expiry is a non-zero time before the clock makes [verify] throw
    [ExpiredSignatureError]. *)
Theorem verify_after_expiry :
  forall (rt : Runtime) (key algorithm : str) (ttl : option Z)
         (now_sign now_verify : Z) (random : list Byte.byte) (url : str)
         (options : SignOptions.t) (context : VerifyOptions.t) (e : Z),
    let this :=
      SignUrl.new rt {| SignatureOptions.key := Some key;
                        SignatureOptions.ttl := ttl;
                        SignatureOptions.hash := Some (HashName algorithm) |} in
    truthy key = true ->
    In algorithm (getHashes rt) ->
    (forall data, hmac rt algorithm key data <> []) ->
    signable url = true ->
    plain_options options = true ->
    ip_matches options context ->
    method_matches options context ->
    SignUrl.resolve_expires this now_sign options = Some e ->
    e <> 0%Z ->
    (e < now_verify)%Z ->
    exists signed,
      SignUrl.sign this now_sign random url options = Ok signed
      /\ (URL_canParse rt signed = true ->
          SignUrl.verify rt this now_verify signed context
          = Throw ExpiredSignatureError).
Proof.
  intros rt key algorithm ttl now_sign now_verify random url options context e
    this Hkey Halg Hmac Hurl Hopts Hip Hm Hres He0 Hlt.
  eexists. split.
  - apply (after_sign_result rt key algorithm ttl now_sign random url options
             Hkey Halg).
  - intros Hparse.
    destruct (after_sign_extract rt key algorithm ttl now_sign random url
                options Hmac Hurl Hopts Hparse)
      as (u & Hu & _ & Hexp & Huip & Hum & _).
    rewrite (verify_checks rt this now_verify _ context u Hu).
    rewrite (ip_accepted u options context Huip Hip).
    rewrite (method_accepted u options context Hum Hm).
    assert (Hx : SignUrl.expired u now_verify = true).
    { unfold SignUrl.expired. fold this in Hexp. rewrite Hexp, Hres.
      cbn [truthy_number]. apply Z.eqb_neq in He0. rewrite He0.
      apply Z.ltb_lt in Hlt. rewrite Hlt. reflexivity. }
    rewrite Hx. reflexivity.
Qed.

(** The scenario of the specification, one millisecond after its expiry. *)
Lemma verify_after_expiry_witness :
  signable "http://x/y" = true
  /\ SignUrl.resolve_expires scenario_signer 1692277975000 scenario_options
     = Some 1700000000000%Z
  /\ exists signed,
       SignUrl.sign scenario_signer 1692277975000 example_random "http://x/y"
         scenario_options = Ok signed
       /\ (URL_canParse example_runtime signed = true ->
           SignUrl.verify example_runtime scenario_signer 1700000000001 signed
             (context_of (Some "GET") None) = Throw ExpiredSignatureError).
Proof.
  split; [reflexivity|]. split; [reflexivity|].
  apply (verify_after_expiry example_runtime "abc" "sha256" (Some 0%Z)
           1692277975000 1700000000001 example_random "http://x/y"
           scenario_options (context_of (Some "GET") None) 1700000000000).
  - reflexivity.
  - simpl. tauto.
  - apply example_hmac_not_empty.
  - reflexivity.
  - reflexivity.
  - exact I.
  - exists "GET", "GET". repeat split. simpl. tauto.
  - reflexivity.
  - discriminate.
  - lia.
Defined.

(** X10. IP binding is enforced. Under the conditions of the round trip on
    the engine, the URL and the options (a key, a supported algorithm whose
    HMAC is not empty, a signable URL, plain options), a URL signed for a
    non-empty address is rejected with [BlackholedSignatureError] whenever
    the context passes no address, an empty one, or another one, whatever
    the method, the expiry and the clock. *)
Theorem verify_bound_ip :
  forall (rt : Runtime) (key algorithm : str) (ttl : option Z)
         (now_sign now_verify : Z) (random : list Byte.byte) (url : str)
         (options : SignOptions.t) (context : VerifyOptions.t)
         (c : ascii) (ip : str),
    let this :=
      SignUrl.new rt {| SignatureOptions.key := Some key;
                        SignatureOptions.ttl := ttl;
                        SignatureOptions.hash := Some (HashName algorithm) |} in
    truthy key = true ->
    In algorithm (getHashes rt) ->
    (forall data, hmac rt algorithm key data <> []) ->
    signable url = true ->
    plain_options options = true ->
    SignOptions.ipAddress options = Some (c :: ip) ->
    VerifyOptions.ipAddress context <> Some (c :: ip) ->
    exists signed,
      SignUrl.sign this now_sign random url options = Ok signed
      /\ (URL_canParse rt signed = true ->
          SignUrl.verify rt this now_verify signed context
          = Throw BlackholedSignatureError).
Proof.
  intros rt key algorithm ttl now_sign now_verify random url options context
    c ip this Hkey Halg Hmac Hurl Hopts Hbound Hctx.
  eexists. split.
  - apply (after_sign_result rt key algorithm ttl now_sign random url options
             Hkey Halg).
  - intros Hparse.
    destruct (after_sign_extract rt key algorithm ttl now_sign random url
                options Hmac Hurl Hopts Hparse)
      as (u & Hu & _ & _ & Huip & _ & _).
    rewrite (verify_checks rt this now_verify _ context u Hu).
    assert (Hrej : SignUrl.ip_rejected u context = true).
    { unfold SignUrl.ip_rejected. rewrite Huip.
      unfold SignUrl.resolve_ipAddress. rewrite Hbound. cbn [truthy or_empty andb].
      destruct (VerifyOptions.ipAddress context) as [a|]; [|reflexivity].
      cbn [or_empty]. destruct (truthy a); [|reflexivity]. cbn [negb orb].
      destruct (str_eqb (c :: ip) a) eqn:E; [|reflexivity].
      apply str_eqb_eq in E. subst a. congruence. }
    rewrite Hrej. reflexivity.
Qed.

Lemma verify_bound_ip_witness :
  SignOptions.ipAddress bound_options = Some "1.2.3.4"
  /\ exists signed,
       SignUrl.sign scenario_signer 1692277975000 example_random "http://x/y"
         bound_options = Ok signed
       /\ (URL_canParse example_runtime signed = true ->
           SignUrl.verify example_runtime scenario_signer 1692277976000 signed
             (context_of (Some "GET") None) = Throw BlackholedSignatureError).
Proof.
  split; [reflexivity|].
  apply (verify_bound_ip example_runtime "abc" "sha256" (Some 0%Z)
           1692277975000 1692277976000 example_random "http://x/y"
           bound_options (context_of (Some "GET") None) "1"%char ".2.3.4").
  - reflexivity.
  - simpl. tauto.
  - apply example_hmac_not_empty.
  - reflexivity.
  - reflexivity.
  - reflexivity.
  - discriminate.
Defined.

(** ** What [sign] depends on *)

(** X11. When the engine's ttl is not zero (as the default of 30 is),
    [sign] ignores [options.ttl] and [options.expires]: two calls that
    differ only in these return the same URL. Its expiry is the engine's
    ttl after the clock when that is a time a [Date] holds (at most 8.64e15
    milliseconds from the epoch), and there is none beyond. *)
Theorem sign_engine_ttl_overrides :
  forall (this : SignUrl.t) (now : Z) (random : list Byte.byte) (url : str)
         (options options' : SignOptions.t),
    SignUrl.ttl this <> 0%Z ->
    SignOptions.method options = SignOptions.method options' ->
    SignOptions.ipAddress options = SignOptions.ipAddress options' ->
    SignUrl.sign this now random url options
    = SignUrl.sign this now random url options'
    /\ ((Z.abs (now + SignUrl.ttl this * 60000) <= 8640000000000000)%Z ->
        SignUrl.resolve_expires this now options
        = Some (now + SignUrl.ttl this * 60000)%Z)
    /\ ((8640000000000000 < Z.abs (now + SignUrl.ttl this * 60000))%Z ->
        SignUrl.resolve_expires this now options = None).
Proof.
  intros this now random url options options' Httl Hm Hip.
  assert (He : forall o, SignUrl.resolve_expires this now o
                         = SignUrl.add_valueOf now (SignUrl.ttl this)).
  { intros o. unfold SignUrl.resolve_expires. apply Z.eqb_neq in Httl.
    rewrite Httl. reflexivity. }
  split; [|split].
  - unfold SignUrl.sign, SignUrl.resolve_method, SignUrl.resolve_ipAddress.
    rewrite !He, Hm, Hip. reflexivity.
  - intros Hr. rewrite He.
    unfold SignUrl.add_valueOf, SignUrl.time_clip, SignUrl.add_minutes.
    apply Z.leb_le in Hr. rewrite Hr. reflexivity.
  - intros Hr. rewrite He.
    unfold SignUrl.add_valueOf, SignUrl.time_clip, SignUrl.add_minutes.
    apply Z.leb_gt in Hr. rewrite Hr. reflexivity.
Qed.

(** The README's signer has the default ttl: an expiry or a ttl in the
    options changes nothing, and the URL expires thirty minutes after the
    clock. *)
Lemma sign_engine_ttl_overrides_witness :
  SignUrl.ttl readme_signer = 30%Z
  /\ SignUrl.sign readme_signer test_clock example_random "http://x/y"
       scenario_options
     = SignUrl.sign readme_signer test_clock example_random "http://x/y"
         {| SignOptions.method := Some (Method "GET");
            SignOptions.ttl := Some 5%Z;
            SignOptions.expires := None;
            SignOptions.ipAddress := None |}
  /\ SignUrl.resolve_expires readme_signer test_clock scenario_options
     = Some 1692277975099%Z.
Proof.
  split; [reflexivity|].
  destruct (sign_engine_ttl_overrides readme_signer test_clock
              example_random "http://x/y" scenario_options
              {| SignOptions.method := Some (Method "GET");
                 SignOptions.ttl := Some 5%Z;
                 SignOptions.expires := None;
                 SignOptions.ipAddress := None |})
    as (Hsame & Hin & _); try reflexivity.
  - discriminate.
  - split; [exact Hsame|]. apply Hin. unfold test_clock. simpl. lia.
Defined.

(** X12. [sign] reads the method without regard to letter case: a method
    and its upper-case form give the same URL. *)
Theorem sign_method_case :
  forall (this : SignUrl.t) (now : Z) (random : list Byte.byte) (url : str)
         (m : str) (t e : option Z) (ip : option str),
    SignUrl.sign this now random url
      {| SignOptions.method := Some (Method m); SignOptions.ttl := t;
         SignOptions.expires := e; SignOptions.ipAddress := ip |}
    = SignUrl.sign this now random url
        {| SignOptions.method := Some (Method (toUpperCase m));
           SignOptions.ttl := t; SignOptions.expires := e;
           SignOptions.ipAddress := ip |}.
Proof.
  intros this now random url m t e ip.
  unfold SignUrl.sign, SignUrl.resolve_method, SignUrl.resolve_expires,
    SignUrl.resolve_ipAddress.
  cbn [SignOptions.method SignOptions.ttl SignOptions.expires
       SignOptions.ipAddress].
  rewrite toUpperCase_idempotent.
  destruct m; reflexivity.
Qed.

(** ** A digest function of the caller's own *)

(** X13. With a digest function of the caller's own the key is never
    needed. [sign] returns the same URL whatever the key is, or without
    one: a text that begins with the URL, followed by [&sig=] and the
    function's value on that text; for plain options and a resolved expiry
    that is a safe integer (or none) the text is the URL with the separator
    and the four attributes. [verify] of a URL that the URL constructor
    accepts returns true or throws one of the three signature errors, never
    a configuration error. *)
Theorem custom_hash_needs_no_key :
  forall (rt : Runtime) (key : option str) (ttl : option Z) (f : HashFunc)
         (now : Z) (random : list Byte.byte) (url : str)
         (options : SignOptions.t) (context : VerifyOptions.t),
    let engine (k : option str) :=
      SignUrl.new rt {| SignatureOptions.key := k;
                        SignatureOptions.ttl := ttl;
                        SignatureOptions.hash := Some (HashFunction f) |} in
    let this := engine key in
    (SignUrl.sign this now random url options
     = SignUrl.sign (engine None) now random url options)
    /\ (exists hashed,
          SignUrl.sign this now random url options
          = Ok (hashed ++ "&sig=" ++ f hashed)
          /\ starts_with url hashed = true)
    /\ (plain_options options = true ->
        safe_expiry (SignUrl.resolve_expires this now options) = true ->
        let hashed :=
          SignUrl.with_attributes url
            {| SignatureData.r := base64url random;
               SignatureData.expires :=
                 SignUrl.resolve_expires this now options;
               SignatureData.method := SignUrl.resolve_method options;
               SignatureData.ipAddress :=
                 SignUrl.resolve_ipAddress options |} in
        SignUrl.sign this now random url options
        = Ok (hashed ++ "&sig=" ++ f hashed))
    /\ (URL_canParse rt url = true ->
        SignUrl.verify rt this now url context = Ok true
        \/ SignUrl.verify rt this now url context
           = Throw BlackholedSignatureError
        \/ SignUrl.verify rt this now url context = Throw ExpiredSignatureError
        \/ SignUrl.verify rt this now url context
           = Throw MismatchSignatureError).
Proof.
  intros rt key ttl f now random url options context engine this.
  split; [reflexivity|]. split; [|split].
  - eexists. split; [reflexivity|].
    unfold SignUrl.with_attributes. apply starts_with_app.
  - intros _ _ hashed. reflexivity.
  - intros Hparse.
    unfold SignUrl.verify, SignUrl.extractUrlData, new_URL. rewrite Hparse.
    cbn [bind].
    match goal with
    | |- context [throw_if (SignUrl.ip_rejected ?u context)] => set (d := u)
    end.
    destruct (SignUrl.ip_rejected d context); [auto|].
    destruct (SignUrl.method_rejected d context); [auto|].
    destruct (SignUrl.expired d now); [auto|].
    cbn [throw_if bind]. unfold SignUrl.isValidURLSignature.
    change (SignUrl.hash this (SignedURLData.urlWithoutSignature d))
      with (@Ok str (f (SignedURLData.urlWithoutSignature d))).
    cbn [bind]. destruct (str_eqb _ _); cbn [negb throw_if bind]; auto.
Qed.

(** X14. The round trip with a digest function of the caller's own holds
    when the function's value is always two or more characters of the class
    [\w]; the other conditions are those of the named algorithm: a signable
    URL, plain options, a resolved expiry that is a safe integer (or none),
    a context that passes the bound IP and one of the signed methods, and
    a clock that has not passed the expiry. *)
Theorem verify_sign_custom_hash :
  forall (rt : Runtime) (key : option str) (ttl : option Z) (f : HashFunc)
         (now_sign now_verify : Z) (random : list Byte.byte) (url : str)
         (options : SignOptions.t) (context : VerifyOptions.t),
    let this :=
      SignUrl.new rt {| SignatureOptions.key := key;
                        SignatureOptions.ttl := ttl;
                        SignatureOptions.hash := Some (HashFunction f) |} in
    (forall data, word_digest (f data) = true) ->
    signable url = true ->
    plain_options options = true ->
    safe_expiry (SignUrl.resolve_expires this now_sign options) = true ->
    ip_matches options context ->
    method_matches options context ->
    not_after now_verify (SignUrl.resolve_expires this now_sign options) ->
    exists signed,
      SignUrl.sign this now_sign random url options = Ok signed
      /\ (URL_canParse rt signed = true ->
          SignUrl.verify rt this now_verify signed context = Ok true).
Proof.
  intros rt key ttl f now_sign now_verify random url options context this
    Hf Hurl Hopts Hsafe Hip Hm He.
  eexists.
  eapply (verify_sign rt this now_sign now_verify random url options context);
    try eassumption.
  - reflexivity.
  - apply Hf.
Qed.

Lemma length_hash_word_digest (data : str) :
  word_digest (length_hash data) = true.
Proof.
  unfold length_hash, word_digest. apply andb_true_iff. split.
  - pose proof (number_to_string_truthy (Z.of_nat (length data))) as H.
    destruct (number_to_string (Z.of_nat (length data))); [discriminate|].
    reflexivity.
  - cbn [forallb]. change (is_word "h") with true. cbn [andb].
    destruct (Z.of_nat (length data)) as [|p|p] eqn:E; [reflexivity| |lia].
    generalize (chars_of_uint_digits (Pos.to_uint p)).
    apply forallb_implies, is_digit_word.
Qed.

(** A signer without a key whose digest is a letter and a length. *)
Lemma verify_sign_custom_hash_witness :
  signable "http://x/y" = true
  /\ exists signed,
       SignUrl.sign custom_signer 1692277975000 example_random "http://x/y"
         scenario_options = Ok signed
       /\ (URL_canParse example_runtime signed = true ->
           SignUrl.verify example_runtime custom_signer 1692277976000 signed
             (context_of (Some "get") None) = Ok true).
Proof.
  split; [reflexivity|].
  apply (verify_sign_custom_hash example_runtime None (Some 0%Z) length_hash
           1692277975000 1692277976000 example_random "http://x/y"
           scenario_options (context_of (Some "get") None)).
  - apply length_hash_word_digest.
  - reflexivity.
  - reflexivity.
  - reflexivity.
  - exact I.
  - exists "get", "GET". repeat split. simpl. tauto.
  - simpl. lia.
Defined.

(** ** The nonce *)

Ltac div_lia := zify; Z.to_euclidean_division_equations; lia.

Lemma base64url_index_char (i : N) :
  (i < 64)%N -> base64url_index (base64url_char i) = i.
Proof.
  intros Hi.
  assert (H : forallb (fun k => N.eqb (base64url_index
                                         (base64url_char (N.of_nat k)))
                                 (N.of_nat k)) (seq 0 64) = true)
    by (vm_compute; reflexivity).
  rewrite forallb_forall in H.
  specialize (H (N.to_nat i)). rewrite N2Nat.id in H.
  apply N.eqb_eq, H, in_seq. lia.
Qed.

Lemma base64url_decode_bounded (n : nat) (bs : list Byte.byte) :
  (length bs <= n)%nat -> base64url_decode (base64url bs) = map Byte.to_N bs.
Proof.
  revert bs. induction n as [|n IH]; intros bs Hn.
  - destruct bs; [reflexivity | simpl in Hn; lia].
  - destruct bs as [|b0 [|b1 [|b2 rest]]]; [reflexivity | | |].
    + pose proof (Byte.to_N_bounded b0) as H0.
      cbn [base64url base64url_decode map].
      rewrite !base64url_index_char by div_lia.
      f_equal. div_lia.
    + pose proof (Byte.to_N_bounded b0) as H0.
      pose proof (Byte.to_N_bounded b1) as H1.
      cbn [base64url base64url_decode map].
      rewrite !base64url_index_char by div_lia.
      f_equal; [div_lia|]. f_equal. div_lia.
    + pose proof (Byte.to_N_bounded b0) as H0.
      pose proof (Byte.to_N_bounded b1) as H1.
      pose proof (Byte.to_N_bounded b2) as H2.
      cbn [base64url base64url_decode map].
      rewrite !base64url_index_char by div_lia.
      rewrite IH by (simpl in Hn; lia).
      f_equal; [div_lia|]. f_equal; [div_lia|]. f_equal. div_lia.
Qed.

Lemma base64url_decode_base64url (bs : list Byte.byte) :
  base64url_decode (base64url bs) = map Byte.to_N bs.
Proof. apply (base64url_decode_bounded (length bs)). lia. Qed.

Lemma map_to_N_injective (bs bs' : list Byte.byte) :
  map Byte.to_N bs = map Byte.to_N bs' -> bs = bs'.
Proof.
  revert bs'. induction bs as [|b bs IH]; intros [|b' bs']; simpl;
    try discriminate; [reflexivity|].
  intros [= Hb Hbs]. f_equal; [|exact (IH _ Hbs)].
  apply (f_equal Byte.of_N) in Hb. rewrite !Byte.of_to_N in Hb.
  congruence.
Qed.

Lemma base64url_injective (bs bs' : list Byte.byte) :
  base64url bs = base64url bs' -> bs = bs'.
Proof.
  intros H. apply map_to_N_injective.
  rewrite <- !base64url_decode_base64url, H. reflexivity.
Qed.

Lemma with_attributes_nonce (url : str) (e : option Z) (ip m : option str)
    (r r' tail tail' : str) :
  SignUrl.with_attributes url
    {| SignatureData.r := r; SignatureData.expires := e;
       SignatureData.method := m; SignatureData.ipAddress := ip |} ++ tail
  = SignUrl.with_attributes url
      {| SignatureData.r := r'; SignatureData.expires := e;
         SignatureData.method := m; SignatureData.ipAddress := ip |} ++ tail' ->
  r ++ tail = r' ++ tail'.
Proof.
  unfold SignUrl.with_attributes.
  cbn [SignatureData.r SignatureData.expires SignatureData.method
       SignatureData.ipAddress].
  rewrite <- !app_assoc. intros H.
  repeat apply app_inv_head in H. exact H.
Qed.

(** X15. The nonce tells signed URLs apart: two calls of [sign] by the
    same engine at the same clock, for the same URL and options, that drew
    different random bytes return different URLs. *)
Theorem sign_nonce_distinct :
  forall (this : SignUrl.t) (now : Z) (random random' : list Byte.byte)
         (url : str) (options : SignOptions.t) (signed signed' : str),
    random <> random' ->
    SignUrl.sign this now random url options = Ok signed ->
    SignUrl.sign this now random' url options = Ok signed' ->
    signed <> signed'.
Proof.
  intros this now random random' url options signed signed' Hne H H' E.
  apply Hne, base64url_injective. subst signed'.
  unfold SignUrl.sign in H, H'.
  destruct (SignUrl.hash this _) as [sg|] in H; [|discriminate].
  destruct (SignUrl.hash this _) as [sg'|] in H'; [|discriminate].
  cbn [bind] in H, H'. rewrite <- H' in H. injection H as H.
  apply with_attributes_nonce in H.
  apply (f_equal (before "&")) in H.
  change ("&sig=" ++ sg) with ("&"%char :: "sig=" ++ sg) in H.
  change ("&sig=" ++ sg') with ("&"%char :: "sig=" ++ sg') in H.
  rewrite !before_app in H
    by (apply plain_lacks; [simpl; tauto | apply base64url_plain]).
  exact H.
Qed.

(** Sixteen bytes and three bytes, with a digest function of the
    caller's own. *)
Lemma sign_nonce_distinct_witness :
  example_random <> bytes_of [1; 2; 3]
  /\ exists signed signed',
       SignUrl.sign custom_signer 5 example_random "http://x/y"
         scenario_options = Ok signed
       /\ SignUrl.sign custom_signer 5 (bytes_of [1; 2; 3]) "http://x/y"
            scenario_options = Ok signed'
       /\ signed <> signed'.
Proof.
  assert (Hne : example_random <> bytes_of [1; 2; 3]) by discriminate.
  split; [exact Hne|].
  eexists. eexists.
  split; [reflexivity|]. split; [reflexivity|].
  exact (sign_nonce_distinct custom_signer 5 example_random
           (bytes_of [1; 2; 3]) "http://x/y" scenario_options _ _ Hne
           eq_refl eq_refl).
Defined.

(** ** A digest that is not the engine's *)

(** X16. A signed URL whose digest is replaced is rejected. Under the
    conditions of the round trip (a signable URL, plain options, a resolved
    expiry that is a safe integer or none, a context that passes the bound
    IP and one of the signed methods, a clock that has not passed the
    expiry), [sign] returns the hashed text followed by [&sig=] and the
    engine's digest, and [verify] of the same text followed by any other
    text of two or more characters of the class [\w] throws
    [MismatchSignatureError]. *)
Theorem verify_rejects_other_digest :
  forall (rt : Runtime) (this : SignUrl.t) (now_sign now_verify : Z)
         (random : list Byte.byte) (url : str) (options : SignOptions.t)
         (context : VerifyOptions.t) (digest forged : str),
    let hashed :=
      SignUrl.with_attributes url
        {| SignatureData.r := base64url random;
           SignatureData.expires :=
             SignUrl.resolve_expires this now_sign options;
           SignatureData.method := SignUrl.resolve_method options;
           SignatureData.ipAddress := SignUrl.resolve_ipAddress options |} in
    signable url = true ->
    plain_options options = true ->
    safe_expiry (SignUrl.resolve_expires this now_sign options) = true ->
    SignUrl.hash this hashed = Ok digest ->
    word_digest forged = true ->
    forged <> digest ->
    ip_matches options context ->
    method_matches options context ->
    not_after now_verify (SignUrl.resolve_expires this now_sign options) ->
    URL_canParse rt (hashed ++ "&sig=" ++ forged) = true ->
    SignUrl.sign this now_sign random url options
    = Ok (hashed ++ "&sig=" ++ digest)
    /\ SignUrl.verify rt this now_verify (hashed ++ "&sig=" ++ forged) context
       = Throw MismatchSignatureError.
Proof.
  intros rt this now_sign now_verify random url options context digest forged
    hashed Hurl Hopts Hsafe Hh Hf Hne Hip Hm He Hparse.
  split.
  { unfold SignUrl.sign. fold hashed. rewrite Hh. reflexivity. }
  destruct (extractUrlData_signed rt url _ forged Hurl
              (plain_options_attributes this now_sign random options Hopts)
              Hf Hparse)
    as (u & Hu & Hbody & Hexp & Huip & Hum & Hus).
  fold hashed in Hu, Hbody.
  rewrite (verify_checks rt this now_verify _ context u Hu).
  rewrite (ip_accepted u options context Huip Hip).
  rewrite (method_accepted u options context Hum Hm).
  rewrite (not_expired u _ now_verify Hexp He).
  cbn [throw_if bind]. unfold SignUrl.isValidURLSignature.
  rewrite Hbody, Hh, Hus. cbn [bind].
  destruct (str_eqb forged digest) eqn:E.
  { apply str_eqb_eq in E. contradiction. }
  reflexivity.
Qed.

(** The README's URL with the last digit of its digest changed. *)
Lemma verify_rejects_other_digest_witness :
  signable "http://localhost:8080/example" = true
  /\ SignUrl.sign readme_signer test_clock example_random
       "http://localhost:8080/example" test_options
     = Ok readme_url
  /\ SignUrl.verify example_runtime readme_signer 1692277000000
       "http://localhost:8080/example?expires=1692277975099&ip=&method=GET&r=KJ2Wxrgp9LCdmZxMIkv9UQ&sig=790c6a7fcccfdd9bb80c32bd3cd64c7965bbe8ed3fa377eacc7c1dea2517f6cf"
       (context_of (Some "GET") None)
     = Throw MismatchSignatureError.
Proof.
  split; [reflexivity|].
  assert (Hh : SignUrl.hash readme_signer
                 "http://localhost:8080/example?expires=1692277975099&ip=&method=GET&r=KJ2Wxrgp9LCdmZxMIkv9UQ"
               = Ok "790c6a7fcccfdd9bb80c32bd3cd64c7965bbe8ed3fa377eacc7c1dea2517f6ce")
    by (vm_compute; reflexivity).
  refine (verify_rejects_other_digest example_runtime readme_signer test_clock
            1692277000000 example_random "http://localhost:8080/example"
            test_options (context_of (Some "GET") None)
            "790c6a7fcccfdd9bb80c32bd3cd64c7965bbe8ed3fa377eacc7c1dea2517f6ce"
            "790c6a7fcccfdd9bb80c32bd3cd64c7965bbe8ed3fa377eacc7c1dea2517f6cf"
            eq_refl eq_refl eq_refl Hh eq_refl _ I _ _ eq_refl).
  - discriminate.
  - exists "GET", "get". repeat split. simpl. tauto.
  - simpl. unfold test_clock. lia.
Defined.

(** ** The middleware *)

Lemma dispatch_not_next (Handler : Type)
    (options : Middleware.VerifierOptions Handler) (e : error) :
  Middleware.dispatch options e <> Middleware.Next.
Proof.
  unfold Middleware.dispatch.
  destruct (Middleware.blackholed options), (Middleware.expired options),
    (Middleware.mismatch options), e; discriminate.
Qed.

(** X17. The middleware calls [next()] exactly when [verify] returns true
    for the URL put together from the request's protocol, host header and
    original URL, with the request's method and, when [useIpAddress] is
    set, the client's address (the empty string otherwise). *)
Theorem signed_next_iff :
  forall (Handler : Type) (rt : Runtime) (signer : SignUrl.t)
         (options : Middleware.VerifierOptions Handler) (now : Z)
         (req : Middleware.Request),
    Middleware.signed rt signer options now req = Middleware.Next
    <-> SignUrl.verify rt signer now
          (Middleware.protocol req ++ "://"
             ++ Middleware.template_text (Middleware.host req)
             ++ Middleware.originalUrl req)
          {| VerifyOptions.method := Some (Middleware.method req);
             VerifyOptions.ipAddress :=
               match Middleware.useIpAddress options with
               | Some true => Middleware.clientIp req
               | _ => Some []
               end |}
        = Ok true.
Proof.
  intros Handler rt signer options now req. unfold Middleware.signed.
  change (SignUrl.verify rt signer now
            (Middleware.protocol req ++ "://"
               ++ Middleware.template_text (Middleware.host req)
               ++ Middleware.originalUrl req) _)
    with (SignUrl.verify rt signer now (Middleware.request_url req)
            (Middleware.request_context options req)).
  destruct (SignUrl.verify rt signer now _ _) as [b|e] eqn:Hv.
  - apply verify_Ok_inv in Hv as [-> _]. split; reflexivity.
  - split; [|discriminate].
    intros H. destruct (dispatch_not_next Handler options e H).
Qed.

(** X18. The handlers of the middleware. A handler is only called with
    an error of its own class; a [TypeError] of the URL constructor and the
    two configuration errors always go to [next(e)]; and whatever
    [next(e)] receives is the error that [verify] threw. *)
Theorem signed_handler_class :
  forall (Handler : Type) (rt : Runtime) (signer : SignUrl.t)
         (options : Middleware.VerifierOptions Handler) (now : Z)
         (req : Middleware.Request),
    (forall h e,
        Middleware.signed rt signer options now req = Middleware.Handled h e ->
        (e = BlackholedSignatureError /\ Middleware.blackholed options = Some h)
        \/ (e = ExpiredSignatureError /\ Middleware.expired options = Some h)
        \/ (e = MismatchSignatureError /\ Middleware.mismatch options = Some h))
    /\ (forall e,
          SignUrl.verify rt signer now (Middleware.request_url req)
            (Middleware.request_context options req) = Throw e ->
          In e [TypeError; NotProvideKeyError; NotSupportedAlgorithmError] ->
          Middleware.signed rt signer options now req = Middleware.NextError e)
    /\ (forall e,
          Middleware.signed rt signer options now req = Middleware.NextError e ->
          SignUrl.verify rt signer now (Middleware.request_url req)
            (Middleware.request_context options req) = Throw e).
Proof.
  intros Handler rt signer options now req. unfold Middleware.signed.
  destruct (SignUrl.verify rt signer now _ _) as [b|e0]; repeat split.
  - discriminate.
  - discriminate.
  - discriminate.
  - unfold Middleware.dispatch. intros h e.
    destruct (Middleware.blackholed options), (Middleware.expired options),
      (Middleware.mismatch options), e0; intros [= <- <-]; auto.
  - intros e [= <-] [<-|[<-|[<-|[]]]]; unfold Middleware.dispatch;
      destruct (Middleware.blackholed options), (Middleware.expired options),
        (Middleware.mismatch options); reflexivity.
  - unfold Middleware.dispatch. intros e.
    destruct (Middleware.blackholed options), (Middleware.expired options),
      (Middleware.mismatch options), e0; intros [= <-]; reflexivity.
Qed.

(** X19. Unless [useIpAddress] is true, the middleware rejects every
    request whose URL carries a non-empty [ip] parameter, whatever the
    client's address: the blackholed handler is called if there is one,
    and [next] receives the [BlackholedSignatureError] otherwise. *)
Theorem signed_rejects_bound_url :
  forall (Handler : Type) (rt : Runtime) (signer : SignUrl.t)
         (options : Middleware.VerifierOptions Handler) (now : Z)
         (req : Middleware.Request) (u : SignedURLData.t),
    Middleware.useIpAddress options <> Some true ->
    SignUrl.extractUrlData rt (Middleware.request_url req) = Ok u ->
    truthy (SignedURLData.ipAddress u) = true ->
    Middleware.signed rt signer options now req
    = match Middleware.blackholed options with
      | Some h => Middleware.Handled h BlackholedSignatureError
      | None => Middleware.NextError BlackholedSignatureError
      end.
Proof.
  intros Handler rt signer options now req u Huse Hu Hip.
  unfold Middleware.signed.
  rewrite (verify_checks rt signer now _ _ u Hu).
  assert (Hr : SignUrl.ip_rejected u (Middleware.request_context options req)
               = true).
  { unfold SignUrl.ip_rejected, Middleware.request_context.
    cbn [VerifyOptions.ipAddress]. rewrite Hip.
    destruct (Middleware.useIpAddress options) as [[|]|];
      [contradiction Huse| |]; reflexivity. }
  rewrite Hr. cbn [throw_if bind]. unfold Middleware.dispatch.
  destruct (Middleware.blackholed options), (Middleware.expired options),
    (Middleware.mismatch options); reflexivity.
Qed.

(** The URL bound to [1.2.3.4], requested from that very address. *)
Lemma signed_rejects_bound_url_witness :
  Middleware.request_url bound_request = bound_url
  /\ SignUrl.extractUrlData example_runtime bound_url = Ok bound_data
  /\ Middleware.signed example_runtime scenario_signer
       (Middleware.defaultOptions unit) 1692277976000 bound_request
     = Middleware.NextError BlackholedSignatureError.
Proof.
  split; [reflexivity|].
  assert (Hu : SignUrl.extractUrlData example_runtime bound_url = Ok bound_data)
    by (vm_compute; reflexivity).
  split; [exact Hu|].
  refine (signed_rejects_bound_url unit example_runtime scenario_signer
            (Middleware.defaultOptions unit) 1692277976000 bound_request
            bound_data _ Hu eq_refl).
  discriminate.
Defined.

(** X20. A request for a URL that [sign] returned passes the middleware:
    under the conditions of the round trip (a key, a supported algorithm
    whose HMAC is not empty, a signable URL, plain options, a resolved
    expiry that is a safe integer or none, a clock that has not passed the
    expiry), with the context being the request's method and the address
    the middleware passes, the middleware calls [next()]. *)
Theorem signed_after_sign :
  forall (Handler : Type) (rt : Runtime) (key algorithm : str) (ttl : option Z)
         (now_sign now_request : Z) (random : list Byte.byte) (url : str)
         (options : SignOptions.t)
         (settings : Middleware.VerifierOptions Handler)
         (req : Middleware.Request),
    let this :=
      SignUrl.new rt {| SignatureOptions.key := Some key;
                        SignatureOptions.ttl := ttl;
                        SignatureOptions.hash := Some (HashName algorithm) |} in
    truthy key = true ->
    In algorithm (getHashes rt) ->
    (forall data, hmac rt algorithm key data <> []) ->
    signable url = true ->
    plain_options options = true ->
    safe_expiry (SignUrl.resolve_expires this now_sign options) = true ->
    ip_matches options (Middleware.request_context settings req) ->
    method_matches options (Middleware.request_context settings req) ->
    not_after now_request (SignUrl.resolve_expires this now_sign options) ->
    SignUrl.sign this now_sign random url options
    = Ok (Middleware.request_url req) ->
    URL_canParse rt (Middleware.request_url req) = true ->
    Middleware.signed rt this settings now_request req = Middleware.Next.
Proof.
  intros Handler rt key algorithm ttl now_sign now_request random url options
    settings req this Hkey Halg Hmac Hurl Hopts Hsafe Hip Hm He Hsign Hparse.
  destruct (verify_sign rt this now_sign now_request random url options
              (Middleware.request_context settings req) _
              Hurl Hopts
              (generateSignature_digest rt key _ algorithm Hkey Halg)
              (hex_encode_word_digest _ (Hmac _)) Hip Hm He)
    as [Hs Hv].
  match type of Hs with
  | _ = Ok ?x => assert (E : x = Middleware.request_url req) by congruence
  end.
  rewrite E in Hv. unfold Middleware.signed. rewrite (Hv Hparse).
  reflexivity.
Qed.

(** The application of [test/index.ts], some minutes after it signed. *)
Lemma signed_after_sign_witness :
  signable "http://localhost:8080/example" = true
  /\ SignUrl.sign readme_signer test_clock example_random
       "http://localhost:8080/example" test_options
     = Ok (Middleware.request_url test_request)
  /\ Middleware.signed example_runtime readme_signer
       (Middleware.defaultOptions unit) 1692277000000 test_request
     = Middleware.Next.
Proof.
  split; [reflexivity|].
  assert (Hs : SignUrl.sign readme_signer test_clock example_random
                 "http://localhost:8080/example" test_options
               = Ok (Middleware.request_url test_request))
    by (vm_compute; reflexivity).
  split; [exact Hs|].
  refine (signed_after_sign unit example_runtime "abc" "sha256" None
            test_clock 1692277000000 example_random
            "http://localhost:8080/example" test_options
            (Middleware.defaultOptions unit) test_request
            eq_refl _ (example_hmac_not_empty "sha256" "abc") eq_refl eq_refl
            eq_refl I _ _ Hs eq_refl).
  - simpl. tauto.
  - exists "GET", "get". repeat split. simpl. tauto.
  - simpl. unfold test_clock. lia.
Defined.

(** ** The failures of [sign] *)

(** X21. With a named algorithm for which the runtime has an HMAC when it
    lists it, [sign] fails by the engine's configuration alone: if it
    throws for one clock, nonce, URL and options, the error has status 400
    and [sign] throws the same error for every other input. *)
Theorem sign_throws_by_configuration :
  forall (rt : Runtime) (key : option str) (ttl : option Z) (algorithm : str)
         (now : Z) (random : list Byte.byte) (url : str)
         (options : SignOptions.t) (e : error),
    let this :=
      SignUrl.new rt {| SignatureOptions.key := key;
                        SignatureOptions.ttl := ttl;
                        SignatureOptions.hash := Some (HashName algorithm) |} in
    (In algorithm (getHashes rt) ->
     forall k data, hmac rt algorithm k data <> []) ->
    SignUrl.sign this now random url options = Throw e ->
    status e = Some 400%Z
    /\ forall (now' : Z) (random' : list Byte.byte) (url' : str)
              (options' : SignOptions.t),
         SignUrl.sign this now' random' url' options' = Throw e.
Proof.
  intros rt key ttl algorithm now random url options e this _.
  unfold SignUrl.sign, this, SignUrl.new.
  cbn [SignUrl.hash SignatureOptions.hash SignatureOptions.key].
  unfold SignUrl.generateSignature.
  destruct (SignUrl.isProvidedKey key); cbn [negb throw_if bind].
  - destruct (SignUrl.isValidAlgorithm rt algorithm);
      cbn [negb throw_if bind]; [discriminate|].
    intros [= <-]. split; reflexivity.
  - intros [= <-]. split; reflexivity.
Qed.

(** The signer without a key. *)
Lemma sign_throws_by_configuration_witness :
  SignUrl.sign keyless_signer 1692277975000 example_random "http://x/y"
    SignOptions.empty = Throw NotProvideKeyError
  /\ status NotProvideKeyError = Some 400%Z
  /\ SignUrl.sign keyless_signer 0 [] [] scenario_options
     = Throw NotProvideKeyError.
Proof.
  split; [reflexivity|].
  assert (Hlisted : In "md999" (getHashes example_runtime) ->
                    forall k data, hmac example_runtime "md999" k data <> [])
    by (intros [H|[]]; discriminate H).
  destruct (sign_throws_by_configuration example_runtime None None "md999"
              1692277975000 example_random "http://x/y" SignOptions.empty
              NotProvideKeyError Hlisted eq_refl)
    as [Hs Hall].
  split; [exact Hs|]. exact (Hall 0%Z [] [] scenario_options).
Defined.
